(** * CursorManager: a shallow embedding of [src/lib/cursor/CursorManager.ts]

    The manager is a singleton that tracks the raw pointer position, a
    smoothed position, a velocity, a visibility flag and a stack of cursor
    styles, and that notifies subscribers once per frame.

    Numbers.  A JavaScript [number] that is finite is a rational, so
    coordinates and the lerp factor are values of [Q] and the arithmetic of
    the source is carried out exactly.  Equalities between computed numbers
    are stated with [==] ([Qeq]); fields that a method merely copies or
    leaves alone are compared with Leibniz equality.  The one division of
    the source, by the size of the viewport, can divide by zero; its result
    is a [JSNumber], which is finite, an infinity or NaN.

    Host.  The source guards its platform calls with
    [globalThis.window === undefined] and [typeof document !== "undefined"].
    A browser page has both objects and a headless host has neither, so the
    host carries one optional [Dom].

    Subscribers.  A subscriber is an observer known by its handle; calling
    it with a snapshot is recorded in the host's call log, in call order. *)

From Stdlib Require Import ZArith QArith Qabs Qminmax Qpower Lqa.
From Stdlib Require Import List Bool Arith Lia.
Import ListNotations.

Open Scope Q_scope.

(** ** types.ts *)

(** [CursorStyle]: the union of string literals of the source. *)
Inductive CursorStyle : Set :=
| s_default | s_pointer | s_grab | s_grabbing | s_none
| s_text | s_crosshair | s_wait | s_move.

Definition CursorStyle_eqb (a b : CursorStyle) : bool :=
  match a, b with
  | s_default, s_default | s_pointer, s_pointer | s_grab, s_grab
  | s_grabbing, s_grabbing | s_none, s_none | s_text, s_text
  | s_crosshair, s_crosshair | s_wait, s_wait | s_move, s_move => true
  | _, _ => false
  end.

Record Position : Set := mkPosition { x : Q; y : Q }.

(** A number that need not be finite: what a division returns. *)
Inductive JSNumber : Set :=
| Finite (q : Q)
| PosInfinity
| NegInfinity
| NaN.

(** [NormalizedPosition]: the two coordinates of the normalized position. *)
Module Normalized.
Record NormalizedPosition : Set := mk { x : JSNumber; y : JSNumber }.
End Normalized.
Definition NormalizedPosition : Set := Normalized.NormalizedPosition.

(** [CursorState]: the snapshot handed to subscribers. *)
Module Snapshot.
Record CursorState : Set := mk {
  position : Position;
  normalizedPosition : NormalizedPosition;
  smoothPosition : Position;
  velocity : Position;
  isVisible : bool;
  isInViewport : bool;
  style : CursorStyle
}.
End Snapshot.
Definition CursorState : Set := Snapshot.CursorState.

(** A subscriber is identified by the handle of its callback. *)
Definition CursorSubscriber : Set := nat.

Record CursorManagerOptions : Set := mkOptions {
  opt_lerpFactor : option Q;
  opt_autoInit : option bool;
  opt_initialStyle : option CursorStyle
}.

(** The empty options object [{}]. *)
Definition no_options : CursorManagerOptions := mkOptions None None None.

(** ** The host: document, window, the frame clock and the call log *)

Record Dom : Set := mkDom {
  innerWidth : Q;
  innerHeight : Q;
  bodyCursor : option CursorStyle;   (* document.body.style.cursor, once set *)
  onMouseMove : bool;                (* "mousemove" listener registered *)
  onMouseEnter : bool;               (* "mouseenter" listener registered *)
  onMouseLeave : bool                (* "mouseleave" listener registered *)
}.

Record Host : Set := mkHost {
  dom : option Dom;
  ticker : bool;                                   (* _boundUpdate in gsap.ticker *)
  calls : list (CursorSubscriber * CursorState)    (* subscriber invocations *)
}.

(** ** The fields of the class *)

Record Manager : Set := mkManager {
  _position : Position;
  _smoothPosition : Position;
  _velocity : Position;
  _previousPosition : Position;
  _isVisible : bool;
  _isInViewport : bool;
  _styleStack : list CursorStyle;          (* index 0 is the base style *)
  _lerpFactor : Q;
  _subscribers : list CursorSubscriber;    (* a Set, in insertion order *)
  _isInitialized : bool
}.

(** A manager together with the host it runs on. *)
Record Sys : Set := mkSys { mgr : Manager; host : Host }.

(** Field assignments. *)
Definition set_position (p : Position) (m : Manager) : Manager :=
  mkManager p (_smoothPosition m) (_velocity m) (_previousPosition m)
    (_isVisible m) (_isInViewport m) (_styleStack m) (_lerpFactor m)
    (_subscribers m) (_isInitialized m).
Definition set_smoothPosition (p : Position) (m : Manager) : Manager :=
  mkManager (_position m) p (_velocity m) (_previousPosition m)
    (_isVisible m) (_isInViewport m) (_styleStack m) (_lerpFactor m)
    (_subscribers m) (_isInitialized m).
Definition set_velocity (p : Position) (m : Manager) : Manager :=
  mkManager (_position m) (_smoothPosition m) p (_previousPosition m)
    (_isVisible m) (_isInViewport m) (_styleStack m) (_lerpFactor m)
    (_subscribers m) (_isInitialized m).
Definition set_previousPosition (p : Position) (m : Manager) : Manager :=
  mkManager (_position m) (_smoothPosition m) (_velocity m) p
    (_isVisible m) (_isInViewport m) (_styleStack m) (_lerpFactor m)
    (_subscribers m) (_isInitialized m).
Definition set_isVisible (b : bool) (m : Manager) : Manager :=
  mkManager (_position m) (_smoothPosition m) (_velocity m) (_previousPosition m)
    b (_isInViewport m) (_styleStack m) (_lerpFactor m)
    (_subscribers m) (_isInitialized m).
Definition set_isInViewport (b : bool) (m : Manager) : Manager :=
  mkManager (_position m) (_smoothPosition m) (_velocity m) (_previousPosition m)
    (_isVisible m) b (_styleStack m) (_lerpFactor m)
    (_subscribers m) (_isInitialized m).
Definition set_styleStack (l : list CursorStyle) (m : Manager) : Manager :=
  mkManager (_position m) (_smoothPosition m) (_velocity m) (_previousPosition m)
    (_isVisible m) (_isInViewport m) l (_lerpFactor m)
    (_subscribers m) (_isInitialized m).
Definition set_lerpFactor (f : Q) (m : Manager) : Manager :=
  mkManager (_position m) (_smoothPosition m) (_velocity m) (_previousPosition m)
    (_isVisible m) (_isInViewport m) (_styleStack m) f
    (_subscribers m) (_isInitialized m).
Definition set_subscribers (l : list CursorSubscriber) (m : Manager) : Manager :=
  mkManager (_position m) (_smoothPosition m) (_velocity m) (_previousPosition m)
    (_isVisible m) (_isInViewport m) (_styleStack m) (_lerpFactor m)
    l (_isInitialized m).
Definition set_isInitialized (b : bool) (m : Manager) : Manager :=
  mkManager (_position m) (_smoothPosition m) (_velocity m) (_previousPosition m)
    (_isVisible m) (_isInViewport m) (_styleStack m) (_lerpFactor m)
    (_subscribers m) b.

Definition on_mgr (f : Manager -> Manager) (s : Sys) : Sys :=
  mkSys (f (mgr s)) (host s).
Definition on_host (f : Host -> Host) (s : Sys) : Sys :=
  mkSys (mgr s) (f (host s)).

(** [document.body.style.cursor = c], guarded by
    [typeof document !== "undefined"]. *)
Definition set_body_cursor (c : CursorStyle) (h : Host) : Host :=
  match dom h with
  | None => h
  | Some d =>
      mkHost (Some (mkDom (innerWidth d) (innerHeight d) (Some c)
                      (onMouseMove d) (onMouseEnter d) (onMouseLeave d)))
        (ticker h) (calls h)
  end.

(** The three [document.addEventListener] / [removeEventListener] calls. *)
Definition set_listeners (b : bool) (h : Host) : Host :=
  match dom h with
  | None => h
  | Some d =>
      mkHost (Some (mkDom (innerWidth d) (innerHeight d) (bodyCursor d) b b b))
        (ticker h) (calls h)
  end.

(** [gsap.ticker.add] / [gsap.ticker.remove] of [_boundUpdate]. *)
Definition set_ticker (b : bool) (h : Host) : Host :=
  mkHost (dom h) b (calls h).

(** One invocation [cb(state)]. *)
Definition call (cb : CursorSubscriber) (st : CursorState) (h : Host) : Host :=
  mkHost (dom h) (ticker h) (calls h ++ [(cb, st)]).

(** ** Arithmetic that can leave the finite numbers *)

(** [a / b] for finite [a] and [b]: a zero divisor gives NaN for [0 / 0]
    and an infinity of the sign of [a] otherwise. *)
Definition js_div (a b : Q) : JSNumber :=
  if Qeq_bool b 0 then
    match a ?= 0 with
    | Eq => NaN
    | Lt => NegInfinity
    | Gt => PosInfinity
    end
  else Finite (a / b).

(** [n * k] for a finite [k]. *)
Definition js_mul (n : JSNumber) (k : Q) : JSNumber :=
  match n with
  | Finite q => Finite (q * k)
  | NaN => NaN
  | PosInfinity =>
      match k ?= 0 with Eq => NaN | Lt => NegInfinity | Gt => PosInfinity end
  | NegInfinity =>
      match k ?= 0 with Eq => NaN | Lt => PosInfinity | Gt => NegInfinity end
  end.

(** [n - k] for a finite [k]. *)
Definition js_sub (n : JSNumber) (k : Q) : JSNumber :=
  match n with
  | Finite q => Finite (q - k)
  | _ => n
  end.

(** [n] is the finite number [q]. *)
Definition js_is (n : JSNumber) (q : Q) : Prop :=
  match n with
  | Finite r => r == q
  | _ => False
  end.

(** ** math.ts *)

(** Modelled from the spec: [lerp] of [src/lib/math.ts], which is imported by
    the manager and is not among the sources.  The glossary gives it as
    linear interpolation, [a + (b-a)*t]. *)
Definition lerp (a b t : Q) : Q := a + (b - a) * t.

(** ** Set<CursorSubscriber> *)

Definition Set_has (cb : CursorSubscriber) (l : list CursorSubscriber) : bool :=
  existsb (Nat.eqb cb) l.
Definition Set_add (cb : CursorSubscriber) (l : list CursorSubscriber)
  : list CursorSubscriber :=
  if Set_has cb l then l else l ++ [cb].
Definition Set_delete (cb : CursorSubscriber) (l : list CursorSubscriber)
  : list CursorSubscriber :=
  filter (fun c => negb (Nat.eqb cb c)) l.

(** ** CursorManager.ts *)

Definition origin : Position := mkPosition 0 0.

(** Public getters. *)
Definition position (s : Sys) : Position := _position (mgr s).
Definition smoothPosition (s : Sys) : Position := _smoothPosition (mgr s).
Definition velocity (s : Sys) : Position := _velocity (mgr s).
Definition isVisible (s : Sys) : bool := _isVisible (mgr s).
Definition isInViewport (s : Sys) : bool := _isInViewport (mgr s).
Definition lerpFactor (s : Sys) : Q := _lerpFactor (mgr s).

(** [this._styleStack.at(-1) ?? "default"] *)
Definition style (s : Sys) : CursorStyle := last (_styleStack (mgr s)) s_default.

Definition normalizedPosition (s : Sys) : NormalizedPosition :=
  match dom (host s) with
  | None => Normalized.mk (Finite 0) (Finite 0)
  | Some d =>
      Normalized.mk
        (js_sub (js_mul (js_div (x (_position (mgr s))) (innerWidth d)) 2) 1)
        (js_sub (js_mul (js_div (y (_position (mgr s))) (innerHeight d)) 2) 1)
  end.

Definition getState (s : Sys) : CursorState :=
  Snapshot.mk (_position (mgr s)) (normalizedPosition s) (_smoothPosition (mgr s))
    (_velocity (mgr s)) (_isVisible (mgr s)) (_isInViewport (mgr s)) (style s).

(** [globalThis.window === undefined] *)
Definition window_undefined (h : Host) : bool :=
  match dom h with Some _ => false | None => true end.

(** [gsap.ticker.add] is modelled as the registration of the callback.
    Frames are the platform's: a frame that gsap dispatches right away is a
    [frame] that follows [init]. *)
Definition init (s : Sys) : Sys :=
  if _isInitialized (mgr s) || window_undefined (host s) then s
  else
    let s1 := on_host (set_listeners true) s in
    let s2 := on_host (set_ticker true) s1 in
    on_mgr (set_isInitialized true) s2.

Definition destroy (s : Sys) : Sys :=
  if negb (_isInitialized (mgr s)) then s
  else
    let s1 := on_host (set_listeners false) s in
    let s2 := on_host (set_ticker false) s1 in
    let s3 := on_mgr (set_subscribers []) s2 in
    on_mgr (set_isInitialized false) s3.

(** The constructor: the field initialisers, then the body. *)
Definition fresh : Manager :=
  mkManager origin origin origin origin true false [s_default] 0.1 [] false.

Definition new_CursorManager (options : option CursorManagerOptions) (h : Host)
  : Sys :=
  let o := match options with Some o => o | None => no_options end in
  let lerpFactor := match opt_lerpFactor o with Some f => f | None => 0.1 end in
  let autoInit := match opt_autoInit o with Some b => b | None => true end in
  let initialStyle :=
    match opt_initialStyle o with Some c => c | None => s_default end in
  let m1 := set_lerpFactor lerpFactor fresh in
  let m2 := set_styleStack [initialStyle] m1 in
  let s := mkSys m2 h in
  if autoInit then init s else s.

(** Event handlers. *)
Definition _handleMouseMove (clientX clientY : Q) (s : Sys) : Sys :=
  let s1 := on_mgr (set_position (mkPosition clientX clientY)) s in
  on_mgr (set_isInViewport true) s1.

Definition _handleMouseEnter (s : Sys) : Sys :=
  let s1 := on_mgr (set_isInViewport true) s in
  on_mgr (set_isVisible true) s1.

Definition _handleMouseLeave (s : Sys) : Sys :=
  on_mgr (set_isInViewport false) s.

Definition _notifySubscribers (s : Sys) : Sys :=
  if (length (_subscribers (mgr s)) =? 0)%nat then s
  else
    let state := getState s in
    fold_left (fun s' subscriber => on_host (call subscriber state) s')
      (_subscribers (mgr s)) s.

(** The update loop, run by the frame clock. *)
Definition _update (s : Sys) : Sys :=
  let m := mgr s in
  let m1 := set_velocity
              (mkPosition (x (_position m) - x (_previousPosition m))
                          (y (_position m) - y (_previousPosition m))) m in
  let m2 := set_previousPosition
              (mkPosition (x (_position m1)) (y (_position m1))) m1 in
  let m3 := set_smoothPosition
              (mkPosition
                 (lerp (x (_smoothPosition m2)) (x (_position m2)) (_lerpFactor m2))
                 (lerp (y (_smoothPosition m2)) (y (_position m2)) (_lerpFactor m2)))
              m2 in
  _notifySubscribers (mkSys m3 (host s)).

Definition setLerpFactor (factor : Q) (s : Sys) : Sys :=
  on_mgr (set_lerpFactor (Qmax 0.01 (Qmin 1 factor))) s.

Definition pushStyle (c : CursorStyle) (s : Sys) : Sys :=
  let s1 := on_mgr (set_styleStack (_styleStack (mgr s) ++ [c])) s in
  on_host (set_body_cursor c) s1.

Definition popStyle (s : Sys) : Sys :=
  if (1 <? length (_styleStack (mgr s)))%nat then
    let s1 := on_mgr (set_styleStack (removelast (_styleStack (mgr s)))) s in
    on_host (set_body_cursor (style s1)) s1
  else s.

(** [this._styleStack[0] = style]: on an empty array the assignment creates
    index 0. *)
Definition setBaseStyle (c : CursorStyle) (s : Sys) : Sys :=
  let l := match _styleStack (mgr s) with
           | [] => [c]
           | _ :: t => c :: t
           end in
  let s1 := on_mgr (set_styleStack l) s in
  if (length (_styleStack (mgr s1)) =? 1)%nat
  then on_host (set_body_cursor c) s1 else s1.

Definition hide (s : Sys) : Sys :=
  let s1 := on_mgr (set_isVisible false) s in
  let s2 := pushStyle s_none s1 in
  on_host (set_body_cursor s_none) s2.

(** The [while] loop of [show].  Every iteration that runs shortens the
    stack by one, so the length of the stack bounds the number of
    iterations; [show] starts the loop with that much fuel. *)
Fixpoint show_loop (fuel : nat) (s : Sys) : Sys :=
  match fuel with
  | O => s
  | S k =>
      if (1 <? length (_styleStack (mgr s)))%nat && CursorStyle_eqb (style s) s_none
      then show_loop k (popStyle s)
      else s
  end.

Definition show (s : Sys) : Sys :=
  let s1 := on_mgr (set_isVisible true) s in
  let s2 := show_loop (length (_styleStack (mgr s1))) s1 in
  on_host (set_body_cursor (style s2)) s2.

(** The closure returned by [subscribe]. *)
Definition unsubscribe (callback : CursorSubscriber) (s : Sys) : Sys :=
  on_mgr (set_subscribers (Set_delete callback (_subscribers (mgr s)))) s.

Definition subscribe (callback : CursorSubscriber) (s : Sys)
  : Sys * (Sys -> Sys) :=
  let s1 := on_mgr (set_subscribers (Set_add callback (_subscribers (mgr s)))) s in
  let s2 := on_host (call callback (getState s1)) s1 in
  (s2, unsubscribe callback).

Definition snapToPosition (s : Sys) : Sys :=
  on_mgr (set_smoothPosition
            (mkPosition (x (_position (mgr s))) (y (_position (mgr s))))) s.

(** ** The singleton *)

Record Program : Set := mkProgram {
  instance : option Manager;     (* CursorManager.instance *)
  phost : Host
}.

(** [CursorManager.instance ??= new CursorManager(options)]; the result is
    the instance, paired with the program after the call. *)
Definition getInstance (options : option CursorManagerOptions) (p : Program)
  : Manager * Program :=
  match instance p with
  | Some m => (m, p)
  | None =>
      let s := new_CursorManager options (phost p) in
      (mgr s, mkProgram (Some (mgr s)) (host s))
  end.

Definition destroyInstance (p : Program) : Program :=
  match instance p with
  | Some m =>
      let s := destroy (mkSys m (phost p)) in
      mkProgram None (host s)
  | None => p
  end.

(** ** What the platform does: events and frames *)

Inductive Event : Set :=
| MouseMove (clientX clientY : Q)
| MouseEnter
| MouseLeave.

(** The document calls a handler only while its listener is registered. *)
Definition dispatch (e : Event) (s : Sys) : Sys :=
  match dom (host s) with
  | None => s
  | Some d =>
      match e with
      | MouseMove cx cy => if onMouseMove d then _handleMouseMove cx cy s else s
      | MouseEnter => if onMouseEnter d then _handleMouseEnter s else s
      | MouseLeave => if onMouseLeave d then _handleMouseLeave s else s
      end
  end.

(** One frame of the gsap ticker. *)
Definition frame (s : Sys) : Sys :=
  if ticker (host s) then _update s else s.

(** Everything a client or the platform can do to a live manager. *)
Inductive Action : Set :=
| AInit | ADestroy
| AEvent (e : Event) | AFrame
| ASetLerpFactor (f : Q)
| AHide | AShow
| APushStyle (c : CursorStyle) | APopStyle | ASetBaseStyle (c : CursorStyle)
| ASubscribe (cb : CursorSubscriber) | AUnsubscribe (cb : CursorSubscriber)
| ASnapToPosition.

Definition run (a : Action) (s : Sys) : Sys :=
  match a with
  | AInit => init s
  | ADestroy => destroy s
  | AEvent e => dispatch e s
  | AFrame => frame s
  | ASetLerpFactor f => setLerpFactor f s
  | AHide => hide s
  | AShow => show s
  | APushStyle c => pushStyle c s
  | APopStyle => popStyle s
  | ASetBaseStyle c => setBaseStyle c s
  | ASubscribe cb => fst (subscribe cb s)
  | AUnsubscribe cb => unsubscribe cb s
  | ASnapToPosition => snapToPosition s
  end.

Definition run_all (l : list Action) (s : Sys) : Sys :=
  fold_left (fun s' a => run a s') l s.

(** A state is reachable when some client built the manager on a host on
    which no listener of the manager is registered yet, and then ran
    actions. *)
Definition pristine (h : Host) : Prop :=
  ticker h = false /\
  match dom h with
  | None => True
  | Some d => onMouseMove d = false /\ onMouseEnter d = false /\
              onMouseLeave d = false
  end.

Inductive reachable : Sys -> Prop :=
| reach_new options h :
    pristine h -> reachable (new_CursorManager options h)
| reach_run a s :
    reachable s -> reachable (run a s).

(** [n] frames in a row, nothing else happening in between. *)
Fixpoint ticks (n : nat) (s : Sys) : Sys :=
  match n with
  | O => s
  | S k => ticks k (_update s)
  end.

(** The style stack of a system. *)
Abbreviation stack s := (_styleStack (mgr s)).

(** Whether anything of the manager is still registered with the platform. *)
Definition listening (h : Host) : bool :=
  ticker h ||
  match dom h with
  | Some d => onMouseMove d || onMouseEnter d || onMouseLeave d
  | None => false
  end.

(** A state is in step with the platform when an uninitialized manager has
    nothing registered. *)
Definition in_step (s : Sys) : Prop :=
  _isInitialized (mgr s) = false -> listening (host s) = false.

(** A natural number as a rational. *)
Definition Qnat (n : nat) : Q := inject_Z (Z.of_nat n).

(** ** Hosts and states used as examples *)

(** No window, no document: server-side rendering, or before mount. *)
Definition headless : Host := mkHost None false [].

(** A page with a viewport of [w] by [h] pixels. *)
Definition browser (w h : Q) : Host :=
  mkHost (Some (mkDom w h None false false false)) false [].


(** The default manager of an 800 by 600 page, the pointer at (10,5). *)
Definition pointer_at_10_5 : Sys :=
  run (AEvent (MouseMove 10 5)) (new_CursorManager None (browser 800 600)).

(** A manager built with [autoInit: false], with one subscriber. *)
Definition subscribed_uninitialized : Sys :=
  run (ASubscribe 7%nat)
    (new_CursorManager (Some (mkOptions None (Some false) None)) (browser 800 600)).

(** A page whose window has no size, for one that is hidden or collapsed;
    the pointer has not moved yet. *)
Definition zero_size_page : Sys := new_CursorManager None (browser 0 0).

(** [hide()], then the pointer enters the page. *)
Definition hidden_then_entered : Sys :=
  run (AEvent MouseEnter) (run AHide (new_CursorManager None (browser 800 600))).

(** ** Calls on the singleton *)

(** A method call [CursorManager.getInstance().f()] with an instance in
    place: the method runs on the instance and on the host, and the
    instance keeps what the method did to it. *)
Definition on_instance (f : Sys -> Sys) (p : Program) : Program :=
  match instance p with
  | Some m =>
      let s := f (mkSys m (phost p)) in
      mkProgram (Some (mgr s)) (host s)
  | None => p
  end.

(** ** useCursor.ts: the hooks over the manager *)

(** The two listeners that [useCursorHover(style)] attaches to its element. *)
Definition useCursorHover_handleEnter (c : CursorStyle) (s : Sys) : Sys :=
  pushStyle c s.
Definition useCursorHover_handleLeave (s : Sys) : Sys :=
  popStyle s.

(** [useCursorHide()] is [useCursorHover("none")]. *)
Definition useCursorHide_handleEnter (s : Sys) : Sys :=
  useCursorHover_handleEnter s_none s.

(** The effect of [useCursorVisibility(shouldShow)] and its cleanup. *)
Definition useCursorVisibility_effect (shouldShow : bool) (s : Sys) : Sys :=
  if shouldShow then show s else hide s.
Definition useCursorVisibility_cleanup (s : Sys) : Sys :=
  show s.

(** The constant that [useCursor] hands to [useSyncExternalStore] as the
    server snapshot. *)
Definition getServerSnapshot : CursorState :=
  Snapshot.mk (mkPosition 0 0) (Normalized.mk (Finite 0) (Finite 0))
    (mkPosition 0 0) (mkPosition 0 0) true false s_default.

(** ** The follower dot (the [FollowCursor] component that keeps its own
    position) *)

Definition EASE : Q := 0.12.

Record FollowCursor : Set := mkFollowCursor {
  fc_pos : Position;                  (* pos.current *)
  fc_el : bool;                       (* dotRef.current is an element *)
  fc_transform : option Position      (* the translate3d last written *)
}.

(** One animation frame of the dot, [target] being [cursor.getPosition()]. *)
Definition FollowCursor_tick (target : Position) (v : FollowCursor)
  : FollowCursor :=
  if fc_el v then
    let px := lerp (x (fc_pos v)) (x target) EASE in
    let py := lerp (y (fc_pos v)) (y target) EASE in
    mkFollowCursor (mkPosition px py) true
      (Some (mkPosition (px - 5) (py - 5)))
  else v.

Fixpoint FollowCursor_ticks (n : nat) (target : Position) (v : FollowCursor)
  : FollowCursor :=
  match n with
  | O => v
  | S k => FollowCursor_ticks k target (FollowCursor_tick target v)
  end.

(** ** useCursorSnapshot: a throttled copy of the pointer position *)

(** The hook's state while its effect is mounted: the position ref, the
    React state, the [timer] variable of the effect's closure, whether the
    "pointermove" listener is registered, and the timeouts of the host that
    have been set and have neither fired nor been cleared. *)
Record SnapshotHook : Set := mkSnapshotHook {
  posRef : Position;
  snapshot : Position;
  timer : option nat;
  moveListener : bool;
  pendingTimeouts : list nat;
  nextTimeout : nat;            (* the id that the next setTimeout returns *)
  setSnapshotCalls : nat        (* how often setSnapshot has been called *)
}.

(** First render and effect: both positions are {0,0}, no timer is set. *)
Definition useCursorSnapshot_mount (firstId : nat) : SnapshotHook :=
  mkSnapshotHook (mkPosition 0 0) (mkPosition 0 0) None true [] firstId 0.

Definition schedule (h : SnapshotHook) : SnapshotHook :=
  match timer h with
  | Some _ => h
  | None =>
      mkSnapshotHook (posRef h) (snapshot h) (Some (nextTimeout h))
        (moveListener h) (pendingTimeouts h ++ [nextTimeout h])
        (S (nextTimeout h)) (setSnapshotCalls h)
  end.

Definition onMove (clientX clientY : Q) (h : SnapshotHook) : SnapshotHook :=
  schedule
    (mkSnapshotHook (mkPosition clientX clientY) (snapshot h) (timer h)
       (moveListener h) (pendingTimeouts h) (nextTimeout h)
       (setSnapshotCalls h)).

(** The callback given to [setTimeout]. *)
Definition onTimeout (h : SnapshotHook) : SnapshotHook :=
  mkSnapshotHook (posRef h) (mkPosition (x (posRef h)) (y (posRef h))) None
    (moveListener h) (pendingTimeouts h) (nextTimeout h)
    (S (setSnapshotCalls h)).

Definition clearTimeout (id : nat) (h : SnapshotHook) : SnapshotHook :=
  mkSnapshotHook (posRef h) (snapshot h) (timer h) (moveListener h)
    (filter (fun i => negb (Nat.eqb id i)) (pendingTimeouts h))
    (nextTimeout h) (setSnapshotCalls h).

(** The cleanup that the effect returns. *)
Definition useCursorSnapshot_cleanup (h : SnapshotHook) : SnapshotHook :=
  let h1 := mkSnapshotHook (posRef h) (snapshot h) (timer h) false
              (pendingTimeouts h) (nextTimeout h) (setSnapshotCalls h) in
  match timer h1 with
  | Some id => clearTimeout id h1
  | None => h1
  end.

(** What the host does to the mounted hook. *)
Inductive HookEvent : Set :=
| PointerMove (clientX clientY : Q)     (* a "pointermove" event *)
| TimeoutFires (id : nat)               (* the delay of timeout [id] is over *)
| Unmount.                              (* React runs the cleanup *)

Definition hook_step (e : HookEvent) (h : SnapshotHook) : SnapshotHook :=
  match e with
  | PointerMove cx cy => if moveListener h then onMove cx cy h else h
  | TimeoutFires id =>
      (* a pending timeout leaves the host's list, then its callback runs *)
      if existsb (Nat.eqb id) (pendingTimeouts h)
      then onTimeout (clearTimeout id h)
      else h
  | Unmount => useCursorSnapshot_cleanup h
  end.

Definition hook_run (l : list HookEvent) (h : SnapshotHook) : SnapshotHook :=
  fold_left (fun h' e => hook_step e h') l h.

(** The hook and the host agree about the timeout: while mounted, the
    pending timeouts are exactly the one in [timer], if any; after the
    cleanup nothing is pending. *)
Definition hook_ok (h : SnapshotHook) : Prop :=
  if moveListener h
  then pendingTimeouts h = match timer h with Some id => [id] | None => [] end
  else pendingTimeouts h = [].


(** What is registered with the platform: the ticker callback and, on a
    page, each of the three listeners. *)
Definition registrations (h : Host) : bool * option (bool * bool * bool) :=
  (ticker h,
   match dom h with
   | Some d => Some (onMouseMove d, onMouseEnter d, onMouseLeave d)
   | None => None
   end).

(** Everything that [init] registers is registered. *)
Definition registered (h : Host) : bool :=
  match registrations h with
  | (true, Some (true, true, true)) => true
  | _ => false
  end.

(** The handler that the manager binds to an event. *)
Definition handle (e : Event) (s : Sys) : Sys :=
  match e with
  | MouseMove cx cy => _handleMouseMove cx cy s
  | MouseEnter => _handleMouseEnter s
  | MouseLeave => _handleMouseLeave s
  end.

(** Frames with the pointer moving: before each frame the pointer moves to
    the next position of the list.  [frames_with_moves] is the state after
    the last frame and [frame_velocities] lists the velocity that each frame
    computed. *)
Definition frames_with_moves (ps : list Position) (s : Sys) : Sys :=
  fold_left (fun t p => _update (_handleMouseMove (x p) (y p) t)) ps s.

Fixpoint frame_velocities (ps : list Position) (s : Sys) : list Position :=
  match ps with
  | [] => []
  | p :: r =>
      let t := _update (_handleMouseMove (x p) (y p) s) in
      velocity t :: frame_velocities r t
  end.

Definition sum_x (l : list Position) : Q := fold_right (fun p a => x p + a) 0 l.
Definition sum_y (l : list Position) : Q := fold_right (fun p a => y p + a) 0 l.

(** An integer of magnitude up to [bound].  Doubles hold the integers up to
    2^53 = 9007199254740992 exactly, so sums and differences that stay in
    that range are computed without rounding. *)
Definition exact_int (bound : Z) (q : Q) : Prop :=
  exists z : Z, q = inject_Z z /\ (Z.abs z <= bound)%Z.

Definition exact_position (bound : Z) (p : Position) : Prop :=
  exact_int bound (x p) /\ exact_int bound (y p).

(** * Properties *)

(** ** Basic facts *)

Lemma CursorStyle_eqb_eq (a b : CursorStyle) :
  CursorStyle_eqb a b = true <-> a = b.
Proof. destruct a, b; simpl; split; intro H; congruence. Qed.

Lemma CursorStyle_eqb_neq (a b : CursorStyle) :
  CursorStyle_eqb a b = false <-> a <> b.
Proof. destruct a, b; simpl; split; intro H; congruence. Qed.

Lemma length_removelast (l : list CursorStyle) :
  length (removelast l) = pred (length l).
Proof.
  rewrite removelast_firstn_len, length_firstn. lia.
Qed.

Lemma nonempty_length (l : list CursorStyle) : l <> [] <-> (1 <= length l)%nat.
Proof. destruct l; simpl; split; intro H; try congruence; lia. Qed.

(** Notifying subscribers only extends the call log. *)
Lemma fold_call_mgr (st : CursorState) (l : list CursorSubscriber) (s : Sys) :
  mgr (fold_left (fun s' c => on_host (call c st) s') l s) = mgr s.
Proof. revert s; induction l as [|c l IH]; intro s; simpl; [|rewrite IH]; reflexivity. Qed.

Lemma fold_call_host (st : CursorState) (l : list CursorSubscriber) (s : Sys) :
  host (fold_left (fun s' c => on_host (call c st) s') l s)
  = mkHost (dom (host s)) (ticker (host s))
      (calls (host s) ++ map (fun c => (c, st)) l).
Proof.
  revert s; induction l as [|c l IH]; intro s; simpl.
  - rewrite app_nil_r. destruct (host s); reflexivity.
  - rewrite IH. simpl. rewrite <- app_assoc. reflexivity.
Qed.

Lemma _notifySubscribers_mgr (s : Sys) : mgr (_notifySubscribers s) = mgr s.
Proof.
  unfold _notifySubscribers.
  destruct (length (_subscribers (mgr s)) =? 0)%nat; [reflexivity|].
  apply fold_call_mgr.
Qed.

Lemma _notifySubscribers_host (s : Sys) :
  host (_notifySubscribers s)
  = mkHost (dom (host s)) (ticker (host s))
      (calls (host s) ++ map (fun c => (c, getState s)) (_subscribers (mgr s))).
Proof.
  unfold _notifySubscribers.
  destruct (_subscribers (mgr s)) as [|c l] eqn:E; simpl.
  - rewrite app_nil_r. destruct (host s); reflexivity.
  - rewrite fold_call_host. simpl. rewrite <- app_assoc. reflexivity.
Qed.

(** ** The style stack *)

Lemma popStyle_stack (s : Sys) :
  stack (popStyle s)
  = if (1 <? length (stack s))%nat then removelast (stack s) else stack s.
Proof. unfold popStyle. destruct (1 <? length (stack s))%nat; reflexivity. Qed.

Lemma popStyle_mgr (s : Sys) :
  mgr (popStyle s) = set_styleStack (stack (popStyle s)) (mgr s).
Proof.
  unfold popStyle. destruct (1 <? length (stack s))%nat; simpl; [reflexivity|].
  destruct (mgr s); reflexivity.
Qed.

(** The loop of [show] changes no field of the manager but the stack. *)
Lemma show_loop_mgr (fuel : nat) (s : Sys) :
  mgr (show_loop fuel s) = set_styleStack (stack (show_loop fuel s)) (mgr s).
Proof.
  revert s; induction fuel as [|k IH]; intro s; simpl.
  - destruct (mgr s); reflexivity.
  - destruct ((1 <? length (stack s))%nat && CursorStyle_eqb (style s) s_none).
    + rewrite IH, popStyle_mgr. reflexivity.
    + destruct (mgr s); reflexivity.
Qed.

(** The loop only removes "none" entries from the top. *)
Lemma show_loop_stack (fuel : nat) (s : Sys) :
  exists k, stack s = stack (show_loop fuel s) ++ repeat s_none k.
Proof.
  revert s; induction fuel as [|n IH]; intro s; simpl.
  - exists 0%nat. simpl. now rewrite app_nil_r.
  - destruct (1 <? length (stack s))%nat eqn:L; simpl.
    + destruct (CursorStyle_eqb (style s) s_none) eqn:E.
      * apply CursorStyle_eqb_eq in E. apply Nat.ltb_lt in L.
        destruct (IH (popStyle s)) as [k Hk].
        rewrite popStyle_stack in Hk.
        replace (1 <? length (stack s))%nat with true in Hk
          by (symmetry; now apply Nat.ltb_lt).
        exists (S k).
        assert (N : stack s <> []) by (apply nonempty_length; lia).
        rewrite (app_removelast_last s_default N) at 1.
        unfold style in E. rewrite E, Hk, <- app_assoc.
        f_equal. simpl. now rewrite repeat_cons.
      * exists 0%nat. simpl. now rewrite app_nil_r.
    + exists 0%nat. simpl. now rewrite app_nil_r.
Qed.

(** With fuel for the whole stack the loop runs to its exit condition. *)
Lemma show_loop_done (fuel : nat) (s : Sys) :
  (length (stack s) <= fuel)%nat ->
  (length (stack (show_loop fuel s)) <= 1)%nat
  \/ style (show_loop fuel s) <> s_none.
Proof.
  revert s; induction fuel as [|n IH]; intros s H; simpl.
  - left. lia.
  - destruct (1 <? length (stack s))%nat eqn:L; simpl.
    + destruct (CursorStyle_eqb (style s) s_none) eqn:E.
      * apply IH. rewrite popStyle_stack, L, length_removelast.
        apply Nat.ltb_lt in L. lia.
      * right. now apply CursorStyle_eqb_neq.
    + left. apply Nat.ltb_ge in L. exact L.
Qed.

Lemma show_loop_nonempty (fuel : nat) (s : Sys) :
  stack s <> [] -> stack (show_loop fuel s) <> [].
Proof.
  revert s; induction fuel as [|n IH]; intros s H; simpl; [exact H|].
  destruct (1 <? length (stack s))%nat eqn:L; simpl; [|exact H].
  destruct (CursorStyle_eqb (style s) s_none); [|exact H].
  apply IH. rewrite popStyle_stack, L. apply nonempty_length.
  rewrite length_removelast. apply Nat.ltb_lt in L. lia.
Qed.

Lemma show_stack (s : Sys) :
  stack (show s) = stack (show_loop (length (stack s)) (on_mgr (set_isVisible true) s)).
Proof. reflexivity. Qed.

Lemma hide_stack (s : Sys) : stack (hide s) = stack s ++ [s_none].
Proof. reflexivity. Qed.

(** Which actions touch the stack at all. *)
Lemma run_stack_other (a : Action) (s : Sys) :
  match a with
  | AHide | AShow | APushStyle _ | APopStyle | ASetBaseStyle _ => True
  | _ => stack (run a s) = stack s
  end.
Proof.
  destruct a; simpl; try exact I.
  - unfold init. destruct (_ || _); reflexivity.
  - unfold destroy. destruct (negb _); reflexivity.
  - unfold dispatch. destruct (dom (host s)) as [d|]; [|reflexivity].
    destruct e; [destruct (onMouseMove d)|destruct (onMouseEnter d)
                |destruct (onMouseLeave d)]; reflexivity.
  - unfold frame. destruct (ticker (host s)); [|reflexivity].
    unfold _update. rewrite _notifySubscribers_mgr. reflexivity.
  - reflexivity.
  - reflexivity.
  - reflexivity.
  - reflexivity.
Qed.

Lemma setBaseStyle_stack (c : CursorStyle) (s : Sys) :
  stack (setBaseStyle c s)
  = match stack s with [] => [c] | _ :: t => c :: t end.
Proof.
  unfold setBaseStyle. cbv zeta.
  match goal with |- context [if ?b then _ else _] => destruct b end; reflexivity.
Qed.

Lemma run_nonempty (a : Action) (s : Sys) :
  stack s <> [] -> stack (run a s) <> [].
Proof.
  intro H. pose proof (run_stack_other a s) as F.
  destruct a; try (rewrite F; exact H); cbn [run].
  - rewrite hide_stack. now destruct (stack s).
  - rewrite show_stack. now apply show_loop_nonempty.
  - change (stack s ++ [c] <> []). now destruct (stack s).
  - rewrite popStyle_stack. destruct (1 <? length (stack s))%nat eqn:L; [|exact H].
    apply nonempty_length. rewrite length_removelast. apply Nat.ltb_lt in L. lia.
  - rewrite setBaseStyle_stack. destruct (stack s); discriminate.
Qed.

Lemma new_CursorManager_stack (options : option CursorManagerOptions) (h : Host) :
  exists c, stack (new_CursorManager options h) = [c].
Proof.
  unfold new_CursorManager. cbv zeta.
  destruct (match opt_autoInit _ with Some b => b | None => true end).
  - unfold init. destruct (_ || _); eexists; reflexivity.
  - eexists; reflexivity.
Qed.

Lemma reachable_nonempty (s : Sys) : reachable s -> stack s <> [].
Proof.
  induction 1 as [options h _|a s _ IH].
  - destruct (new_CursorManager_stack options h) as [c ->]. discriminate.
  - now apply run_nonempty.
Qed.

Lemma prefix_base (r t : list CursorStyle) :
  r <> [] -> nth_error (r ++ t) 0 = nth_error r 0.
Proof. destruct r; [congruence|reflexivity]. Qed.

(** No action but [setBaseStyle] changes the entry at index 0. *)
Lemma run_base (a : Action) (s : Sys) :
  stack s <> [] ->
  (forall c, a <> ASetBaseStyle c) ->
  nth_error (stack (run a s)) 0 = nth_error (stack s) 0.
Proof.
  intros H Ha. pose proof (run_stack_other a s) as F.
  pose proof (run_nonempty a s H) as N.
  destruct a; try (rewrite F; reflexivity); cbn [run] in *.
  - rewrite hide_stack. now apply prefix_base.
  - rewrite show_stack in *.
    destruct (show_loop_stack (length (stack s)) (on_mgr (set_isVisible true) s))
      as [k Hk].
    change (stack (on_mgr (set_isVisible true) s)) with (stack s) in Hk.
    rewrite Hk at 2. symmetry. now apply prefix_base.
  - change (stack (pushStyle c s)) with (stack s ++ [c]). now apply prefix_base.
  - rewrite popStyle_stack in *.
    destruct (1 <? length (stack s))%nat; [|reflexivity].
    rewrite (app_removelast_last s_default H) at 2.
    symmetry. now apply prefix_base.
  - now elim (Ha c).
Qed.

(** What [show] does to any state: it marks the cursor visible and pops
    "none" entries until the top is another style or one entry is left. *)
Lemma show_spec (s : Sys) :
  isVisible (show s) = true /\
  (exists k, stack s = stack (show s) ++ repeat s_none k) /\
  ((length (stack (show s)) <= 1)%nat \/ style (show s) <> s_none).
Proof.
  split; [|split].
  - unfold isVisible, show. cbv zeta. simpl. rewrite show_loop_mgr. reflexivity.
  - rewrite show_stack.
    exact (show_loop_stack (length (stack s)) (on_mgr (set_isVisible true) s)).
  - exact (show_loop_done (length (stack s)) (on_mgr (set_isVisible true) s)
             (Nat.le_refl _)).
Qed.

Lemma pristine_headless : pristine headless.
Proof. split; [reflexivity|exact I]. Qed.

Lemma pristine_browser (w h : Q) : pristine (browser w h).
Proof. repeat split. Qed.

(** ** C1: hide followed by show *)




(** ** C2: the style stack is never empty *)

(** C2: the constructor builds a one-entry stack; [pushStyle], [popStyle],
    [setBaseStyle], [hide], [show] and a tick, and in fact every action,
    keep the stack non-empty, and all but [setBaseStyle] keep the entry at
    index 0; so every reachable state has its base style at index 0.
    [popStyle()] on a one-entry stack changes nothing at all. *)
Theorem style_stack_never_empty :
  (forall options h, exists c, stack (new_CursorManager options h) = [c]) /\
  (forall s, stack s <> [] ->
     (forall c, stack (pushStyle c s) <> []) /\
     stack (popStyle s) <> [] /\
     (forall c, stack (setBaseStyle c s) <> []) /\
     stack (hide s) <> [] /\
     stack (show s) <> [] /\
     stack (_update s) <> [] /\
     (forall a, stack (run a s) <> []) /\
     (forall a, (forall c, a <> ASetBaseStyle c) ->
                nth_error (stack (run a s)) 0 = nth_error (stack s) 0)) /\
  (forall s, reachable s ->
     stack s <> [] /\ exists base, nth_error (stack s) 0 = Some base) /\
  (forall s c, stack s = [c] -> popStyle s = s).
Proof.
  split; [exact new_CursorManager_stack|]. split; [|split].
  - intros s N. repeat split.
    + intro c. exact (run_nonempty (APushStyle c) s N).
    + exact (run_nonempty APopStyle s N).
    + intro c. exact (run_nonempty (ASetBaseStyle c) s N).
    + exact (run_nonempty AHide s N).
    + exact (run_nonempty AShow s N).
    + unfold _update. rewrite _notifySubscribers_mgr. exact N.
    + intro a. now apply run_nonempty.
    + intros a Ha. now apply run_base.
  - intros s R. pose proof (reachable_nonempty s R) as N. split; [exact N|].
    destruct (stack s) as [|b t]; [congruence|]. now exists b.
  - intros s c E. unfold popStyle. now rewrite E.
Qed.

Lemma style_stack_never_empty_witness :
  popStyle (new_CursorManager None headless) = new_CursorManager None headless
  /\ stack (popStyle (run (APushStyle s_grab) (new_CursorManager None headless)))
     <> [].
Proof.
  split.
  - apply (proj2 (proj2 (proj2 style_stack_never_empty)) _ s_default).
    reflexivity.
  - apply (proj1 (proj2 style_stack_never_empty)
             (run (APushStyle s_grab) (new_CursorManager None headless))).
    discriminate.
Defined.

(** ** C3: the smoothed position converges to a fixed raw position *)

(** What one tick does to the fields of the manager. *)
Lemma _update_mgr (s : Sys) :
  mgr (_update s)
  = mkManager (_position (mgr s))
      (mkPosition
         (lerp (x (_smoothPosition (mgr s))) (x (_position (mgr s))) (_lerpFactor (mgr s)))
         (lerp (y (_smoothPosition (mgr s))) (y (_position (mgr s))) (_lerpFactor (mgr s))))
      (mkPosition (x (_position (mgr s)) - x (_previousPosition (mgr s)))
                  (y (_position (mgr s)) - y (_previousPosition (mgr s))))
      (mkPosition (x (_position (mgr s))) (y (_position (mgr s))))
      (_isVisible (mgr s)) (_isInViewport (mgr s)) (_styleStack (mgr s))
      (_lerpFactor (mgr s)) (_subscribers (mgr s)) (_isInitialized (mgr s)).
Proof. unfold _update. rewrite _notifySubscribers_mgr. reflexivity. Qed.

Lemma ticks_fixed (n : nat) (s : Sys) :
  position (ticks n s) = position s /\ lerpFactor (ticks n s) = lerpFactor s.
Proof.
  revert s; induction n as [|n IH]; intro s; simpl; [now split|].
  destruct (IH (_update s)) as [P F]. rewrite P, F.
  unfold position, lerpFactor. rewrite _update_mgr. now split.
Qed.

(** The distance to the target shrinks by the factor [1 - t]. *)
Lemma lerp_distance (a b t : Q) :
  t <= 1 -> Qabs (lerp a b t - b) == (1 - t) * Qabs (a - b).
Proof.
  intro H. unfold lerp.
  assert (E : a + (b - a) * t - b == (1 - t) * (a - b)) by ring.
  rewrite E, Qabs_Qmult, (Qabs_pos (1 - t)); [reflexivity|lra].
Qed.

Lemma Qnat_S (n : nat) : Qnat (S n) == Qnat n + 1.
Proof.
  unfold Qnat. rewrite Nat2Z.inj_succ, <- Z.add_1_r, inject_Z_plus. reflexivity.
Qed.

Lemma Qnat_nonneg (n : nat) : 0 <= Qnat n.
Proof.
  unfold Qnat. change 0 with (inject_Z 0). rewrite <- Zle_Qle. lia.
Qed.

Lemma Qnat_le (n m : nat) : (n <= m)%nat -> Qnat n <= Qnat m.
Proof. intro H. unfold Qnat. rewrite <- Zle_Qle. lia. Qed.

Lemma Qpower_S (q : Q) (n : nat) :
  q ^ Z.of_nat (S n) == q ^ Z.of_nat n * q.
Proof.
  rewrite Nat2Z.inj_succ, <- Z.add_1_r, Qpower_plus' by lia.
  reflexivity.
Qed.

(** Powers of a contraction factor [1 - t], for [t] in (0,1]. *)
Section Contraction.

Variable t : Q.
Hypothesis Ht : 0 < t <= 1.

(** A Bernoulli bound: [(1 - t)^n] is at most [1 / (1 + n t)]. *)
Lemma contraction_bound (n : nat) :
  0 <= (1 - t) ^ Z.of_nat n /\ (1 - t) ^ Z.of_nat n * (1 + Qnat n * t) <= 1.
Proof.
  split; [apply Qpower_0_le; lra|].
  induction n as [|n IH].
  - change ((1 - t) ^ Z.of_nat 0) with 1. unfold Qnat. simpl Z.of_nat.
    change (inject_Z 0) with 0. lra.
  - rewrite Qpower_S, Qnat_S.
    pose proof (Qpower_0_le (1 - t) (Z.of_nat n)) as P0.
    pose proof (Qnat_nonneg n) as N0.
    set (P := (1 - t) ^ Z.of_nat n) in *. set (k := Qnat n) in *.
    assert (P1 : 0 <= P) by (apply P0; lra).
    assert (K : 0 <= k * t) by (apply Qmult_le_0_compat; lra).
    assert (Z : 0 <= P * (t * (k * t + t))).
    { apply Qmult_le_0_compat; [assumption|]. apply Qmult_le_0_compat; lra. }
    lra.
Qed.

(** A distance [d] that shrinks by [1 - t] per step drops below any [eps]. *)
Lemma shrinks_below (d eps : Q) :
  0 <= d -> 0 < eps ->
  exists N, forall n, (N <= n)%nat -> (1 - t) ^ Z.of_nat n * d < eps.
Proof.
  intros Hd He.
  destruct (Qarchimedean (d / (eps * t))) as [p Hp].
  exists (Pos.to_nat p). intros n Hn.
  destruct (contraction_bound n) as [P0 PB].
  assert (ET : 0 < eps * t) by (apply Qmult_lt_0_compat; lra).
  assert (Hq : d < Qnat n * (eps * t)).
  { apply Qlt_le_trans with ((Z.pos p # 1) * (eps * t)).
    - assert (E : d == d / (eps * t) * (eps * t)) by (field; lra).
      rewrite E at 1. now apply Qmult_lt_r.
    - apply Qmult_le_compat_r; [|lra].
      apply Qle_trans with (Qnat (Pos.to_nat p)); [|now apply Qnat_le].
      unfold Qnat. rewrite positive_nat_Z. unfold inject_Z. apply Qle_refl. }
  set (P := (1 - t) ^ Z.of_nat n) in *. set (k := Qnat n) in *.
  assert (K : 0 <= k * t).
  { apply Qmult_le_0_compat; [apply Qnat_nonneg|lra]. }
  assert (A : P * d * (1 + k * t) <= d).
  { assert (B : 0 <= d * (1 - P * (1 + k * t))).
    { apply Qmult_le_0_compat; lra. }
    lra. }
  apply Qnot_le_lt. intro C.
  assert (D : 0 <= (P * d - eps) * (1 + k * t)).
  { apply Qmult_le_0_compat; lra. }
  lra.
Qed.

End Contraction.

(** After [n] ticks the distance has shrunk [n] times. *)
Lemma ticks_distance (n : nat) (s : Sys) :
  lerpFactor s <= 1 ->
  Qabs (x (smoothPosition (ticks n s)) - x (position s))
  == (1 - lerpFactor s) ^ Z.of_nat n * Qabs (x (smoothPosition s) - x (position s))
  /\
  Qabs (y (smoothPosition (ticks n s)) - y (position s))
  == (1 - lerpFactor s) ^ Z.of_nat n * Qabs (y (smoothPosition s) - y (position s)).
Proof.
  revert s; induction n as [|n IH]; intros s H.
  - change ((1 - lerpFactor s) ^ Z.of_nat 0) with 1. simpl ticks. split; ring.
  - assert (F : lerpFactor (_update s) = lerpFactor s)
      by (unfold lerpFactor; now rewrite _update_mgr).
    assert (P : position (_update s) = position s)
      by (unfold position; now rewrite _update_mgr).
    destruct (IH (_update s)) as [Ix Iy]; [now rewrite F|].
    rewrite F, P in Ix, Iy. simpl ticks. rewrite Ix, Iy, Qpower_S.
    unfold smoothPosition, position, lerpFactor in *. rewrite _update_mgr.
    cbn [_smoothPosition x y].
    rewrite !lerp_distance by exact H. split; ring.
Qed.

(** C3: for a lerp factor [f] with [0 < f <= 1] and a raw position that
    stays where it is, a tick leaves the raw position and the factor alone
    and multiplies the distance [|smoothed - raw|] by [1 - f] in each
    coordinate; after [n] ticks the distance is [(1 - f)^n] times the initial
    one, and it drops below every positive bound from some tick on. *)
Theorem ticks_converge (s : Sys) :
  0 < lerpFactor s <= 1 ->
  (position (_update s) = position s /\ lerpFactor (_update s) = lerpFactor s) /\
  (Qabs (x (smoothPosition (_update s)) - x (position s))
   == (1 - lerpFactor s) * Qabs (x (smoothPosition s) - x (position s)) /\
   Qabs (y (smoothPosition (_update s)) - y (position s))
   == (1 - lerpFactor s) * Qabs (y (smoothPosition s) - y (position s))) /\
  (forall n,
     position (ticks n s) = position s /\
     Qabs (x (smoothPosition (ticks n s)) - x (position s))
     == (1 - lerpFactor s) ^ Z.of_nat n
        * Qabs (x (smoothPosition s) - x (position s)) /\
     Qabs (y (smoothPosition (ticks n s)) - y (position s))
     == (1 - lerpFactor s) ^ Z.of_nat n
        * Qabs (y (smoothPosition s) - y (position s))) /\
  (forall eps, 0 < eps ->
     exists N, forall n, (N <= n)%nat ->
       Qabs (x (smoothPosition (ticks n s)) - x (position s)) < eps /\
       Qabs (y (smoothPosition (ticks n s)) - y (position s)) < eps).
Proof.
  intro H. assert (H1 : lerpFactor s <= 1) by lra.
  split; [|split; [|split]].
  - unfold position, lerpFactor. rewrite _update_mgr. now split.
  - unfold smoothPosition, position, lerpFactor in *. rewrite _update_mgr.
    cbn [_smoothPosition x y]. split; now apply lerp_distance.
  - intro n. split; [apply ticks_fixed|]. now apply ticks_distance.
  - intros eps He.
    destruct (shrinks_below (lerpFactor s) H
                (Qabs (x (smoothPosition s) - x (position s))) eps
                (Qabs_nonneg _) He) as [Nx HNx].
    destruct (shrinks_below (lerpFactor s) H
                (Qabs (y (smoothPosition s) - y (position s))) eps
                (Qabs_nonneg _) He) as [Ny HNy].
    exists (Nat.max Nx Ny). intros n Hn.
    destruct (ticks_distance n s H1) as [Ex Ey].
    rewrite Ex, Ey. split; [apply HNx|apply HNy]; lia.
Qed.

Lemma ticks_converge_witness :
  0 < lerpFactor pointer_at_10_5 <= 1 /\
  exists N, forall n, (N <= n)%nat ->
    Qabs (x (smoothPosition (ticks n pointer_at_10_5)) - 10) < 1 # 1000 /\
    Qabs (y (smoothPosition (ticks n pointer_at_10_5)) - 5) < 1 # 1000.
Proof.
  assert (H : 0 < lerpFactor pointer_at_10_5 <= 1)
    by (split; [reflexivity|discriminate]).
  split; [exact H|].
  exact (proj2 (proj2 (proj2 (ticks_converge pointer_at_10_5 H)))
           (1 # 1000) eq_refl).
Defined.

(** ** C4: velocity *)

Lemma new_CursorManager_mgr (options : option CursorManagerOptions) (h : Host) :
  let o := match options with Some o => o | None => no_options end in
  let m := set_styleStack
             [match opt_initialStyle o with Some c => c | None => s_default end]
             (set_lerpFactor
                (match opt_lerpFactor o with Some f => f | None => 0.1 end) fresh) in
  mgr (new_CursorManager options h) = m
  \/ mgr (new_CursorManager options h) = set_isInitialized true m.
Proof.
  unfold new_CursorManager. cbv zeta.
  destruct (match opt_autoInit _ with Some b => b | None => true end).
  - unfold init. destruct (_ || _); [left|right]; reflexivity.
  - left; reflexivity.
Qed.

(** C4: a tick sets the velocity to [raw - previousRaw] and then stores
    [previousRaw = raw].  So from the initial state, whose raw position is
    (0,0), a tick, a move of the pointer to (10,5) and a second tick give the
    velocity (10,5), and a third tick with the pointer at rest gives (0,0);
    the same holds when the frames and the move come from the platform of a
    page. *)
Theorem tick_velocity :
  (forall s,
     velocity (_update s)
     = mkPosition (x (position s) - x (_previousPosition (mgr s)))
                  (y (position s) - y (_previousPosition (mgr s))) /\
     _previousPosition (mgr (_update s))
     = mkPosition (x (position s)) (y (position s))) /\
  (forall options h,
     let s0 := new_CursorManager options h in
     let s1 := _update s0 in
     let s2 := _update (_handleMouseMove 10 5 s1) in
     let s3 := _update s2 in
     position s0 = mkPosition 0 0 /\
     velocity s1 = mkPosition 0 0 /\
     velocity s2 = mkPosition 10 5 /\
     position s3 = position s2 /\
     velocity s3 = mkPosition 0 0) /\
  (forall w h,
     let s0 := new_CursorManager None (browser w h) in
     let s2 := run_all [AFrame; AEvent (MouseMove 10 5); AFrame] s0 in
     velocity s2 = mkPosition 10 5 /\
     velocity (run AFrame s2) = mkPosition 0 0).
Proof.
  split; [|split].
  - intro s. unfold velocity, position. rewrite _update_mgr. now split.
  - intros options h. cbv zeta. unfold velocity, position.
    rewrite !_update_mgr.
    destruct (new_CursorManager_mgr options h) as [E|E]; cbv zeta in E;
      cbn [_handleMouseMove on_mgr mgr]; rewrite !_update_mgr, E;
      repeat split; reflexivity.
  - intros w h. split; reflexivity.
Qed.

(** ** C5: the normalized position *)

Lemma js_div_nonzero (a b : Q) : ~ b == 0 -> js_div a b = Finite (a / b).
Proof.
  intro H. unfold js_div. destruct (Qeq_bool b 0) eqn:E; [|reflexivity].
  apply Qeq_bool_eq in E. contradiction.
Qed.

Lemma js_div_zero (a b : Q) :
  b == 0 ->
  js_div a b
  = match a ?= 0 with Eq => NaN | Lt => NegInfinity | Gt => PosInfinity end.
Proof.
  intro H. unfold js_div. destruct (Qeq_bool b 0) eqn:E; [reflexivity|].
  apply Qeq_bool_neq in E. contradiction.
Qed.

(** With a divisor that is not zero the coordinate is the finite number
    [a / b * 2 - 1]. *)
Lemma normalized_coordinate (a b : Q) :
  ~ b == 0 ->
  js_sub (js_mul (js_div a b) 2) 1 = Finite (a / b * 2 - 1).
Proof. intro H. now rewrite js_div_nonzero. Qed.

(** C5, as stated, fails: the dimensions of a window can be known and be 0,
    and then the source divides by zero.  On the page without size the raw
    position (0,0), which is (w/2, h/2) and (w,h) as well, is normalized to
    NaN in both coordinates, and any other raw position to an infinity. *)
Lemma normalized_position_counterexample :
  (exists d, dom (host zero_size_page) = Some d /\
             innerWidth d = 0 /\ innerHeight d = 0) /\
  position zero_size_page = mkPosition 0 0 /\
  normalizedPosition zero_size_page = Normalized.mk NaN NaN /\
  (forall q, ~ js_is (Normalized.x (normalizedPosition zero_size_page)) q) /\
  normalizedPosition (_handleMouseMove 10 5 zero_size_page)
  = Normalized.mk PosInfinity PosInfinity.
Proof.
  split; [eexists; repeat split|].
  split; [reflexivity|]. split; [reflexivity|].
  split; [intros q H; exact H|reflexivity].
Qed.

(** C5 (amended): with a viewport of [w] by [h] pixels, neither of them 0,
    the normalized position is [2 * raw / size - 1] in each coordinate, so
    the raw positions (w/2, h/2), (0,0) and (w,h) map to (0,0), (-1,-1) and
    (1,1); without a window the normalized position is (0,0). *)
Theorem normalized_position (s : Sys) :
  (forall d, dom (host s) = Some d ->
     ~ innerWidth d == 0 -> ~ innerHeight d == 0 ->
     (js_is (Normalized.x (normalizedPosition s))
        (2 * x (position s) / innerWidth d - 1) /\
      js_is (Normalized.y (normalizedPosition s))
        (2 * y (position s) / innerHeight d - 1)) /\
     (x (position s) == innerWidth d / 2 -> y (position s) == innerHeight d / 2 ->
      js_is (Normalized.x (normalizedPosition s)) 0 /\
      js_is (Normalized.y (normalizedPosition s)) 0) /\
     (x (position s) == 0 -> y (position s) == 0 ->
      js_is (Normalized.x (normalizedPosition s)) (-1) /\
      js_is (Normalized.y (normalizedPosition s)) (-1)) /\
     (x (position s) == innerWidth d -> y (position s) == innerHeight d ->
      js_is (Normalized.x (normalizedPosition s)) 1 /\
      js_is (Normalized.y (normalizedPosition s)) 1)) /\
  (dom (host s) = None ->
   normalizedPosition s = Normalized.mk (Finite 0) (Finite 0)).
Proof.
  split.
  - intros d E W H. unfold normalizedPosition, position. rewrite E.
    cbn [Normalized.x Normalized.y].
    rewrite !normalized_coordinate by assumption. cbn [js_is].
    split; [split; field; assumption|].
    split; [|split]; intros Hx Hy; rewrite Hx, Hy; split; field; assumption.
  - intro E. unfold normalizedPosition. now rewrite E.
Qed.

Lemma normalized_position_witness :
  (js_is (Normalized.x (normalizedPosition
            (_handleMouseMove 400 300 (new_CursorManager None (browser 800 600)))))
     0 /\
   js_is (Normalized.y (normalizedPosition
            (_handleMouseMove 400 300 (new_CursorManager None (browser 800 600)))))
     0)
  /\ normalizedPosition (new_CursorManager None headless)
     = Normalized.mk (Finite 0) (Finite 0).
Proof.
  split.
  - refine (proj1 (proj2 (proj1
               (normalized_position
                  (_handleMouseMove 400 300
                     (new_CursorManager None (browser 800 600))))
               _ eq_refl _ _)) _ _);
      vm_compute; congruence.
  - exact (proj2 (normalized_position (new_CursorManager None headless)) eq_refl).
Defined.

(** ** C6: destroy *)

Lemma listening_set_body_cursor (c : CursorStyle) (h : Host) :
  listening (set_body_cursor c h) = listening h.
Proof. destruct h as [[d|] t l]; reflexivity. Qed.

Lemma popStyle_listening (s : Sys) :
  listening (host (popStyle s)) = listening (host s).
Proof.
  unfold popStyle. destruct (1 <? length (stack s))%nat; [|reflexivity].
  apply listening_set_body_cursor.
Qed.

Lemma show_loop_listening (fuel : nat) (s : Sys) :
  listening (host (show_loop fuel s)) = listening (host s).
Proof.
  revert s; induction fuel as [|k IH]; intro s; simpl; [reflexivity|].
  destruct ((1 <? length (stack s))%nat && CursorStyle_eqb (style s) s_none);
    [|reflexivity].
  rewrite IH. apply popStyle_listening.
Qed.

(** Only [init] and [destroy] register or remove anything. *)
Lemma run_listening_other (a : Action) (s : Sys) :
  match a with
  | AInit | ADestroy => True
  | _ => listening (host (run a s)) = listening (host s) /\
         _isInitialized (mgr (run a s)) = _isInitialized (mgr s)
  end.
Proof.
  destruct a; cbn [run]; try exact I.
  - unfold dispatch. destruct (dom (host s)) as [d|]; [|now split].
    destruct e; [destruct (onMouseMove d)|destruct (onMouseEnter d)
                |destruct (onMouseLeave d)]; now split.
  - unfold frame. destruct (ticker (host s)); [|now split].
    rewrite _update_mgr. unfold _update.
    rewrite _notifySubscribers_host. now split.
  - now split.
  - split; [|reflexivity]. unfold hide, pushStyle. cbv zeta.
    cbn [on_host on_mgr host]. now rewrite !listening_set_body_cursor.
  - split.
    + unfold show. cbv zeta. cbn [on_host host].
      now rewrite listening_set_body_cursor, show_loop_listening.
    + unfold show. cbv zeta. cbn [on_host mgr]. now rewrite show_loop_mgr.
  - split; [|reflexivity]. unfold pushStyle. cbn [on_host host].
    now rewrite listening_set_body_cursor.
  - split; [apply popStyle_listening|]. now rewrite popStyle_mgr.
  - unfold setBaseStyle. cbv zeta.
    match goal with |- context [if ?b then _ else _] => destruct b end;
      split; try reflexivity.
    cbn [on_host host]. now rewrite listening_set_body_cursor.
  - now split.
  - now split.
  - now split.
Qed.

Lemma pristine_listening (h : Host) : pristine h -> listening h = false.
Proof.
  unfold pristine, listening. intros [T D]. rewrite T.
  destruct (dom h) as [d|]; [|reflexivity].
  destruct D as (A & B & C). now rewrite A, B, C.
Qed.

Lemma destroy_initialized (s : Sys) :
  _isInitialized (mgr s) = true ->
  listening (host (destroy s)) = false /\
  _subscribers (mgr (destroy s)) = [] /\
  _isInitialized (mgr (destroy s)) = false.
Proof.
  intro I. unfold destroy. rewrite I. cbn.
  repeat split. destruct (host s) as [[d|] t l]; reflexivity.
Qed.

Lemma destroy_uninitialized (s : Sys) :
  _isInitialized (mgr s) = false -> destroy s = s.
Proof. intro I. unfold destroy. now rewrite I. Qed.

Lemma reachable_in_step (s : Sys) : reachable s -> in_step s.
Proof.
  induction 1 as [options h P|a s _ IH].
  - pose proof (pristine_listening h P) as L. intro I.
    revert I. unfold new_CursorManager. cbv zeta.
    destruct (match opt_autoInit _ with Some b => b | None => true end);
      [|intros _; exact L].
    unfold init. destruct (_ || _); [intros _; exact L|discriminate].
  - pose proof (run_listening_other a s) as F. intro I.
    destruct a; cbn [run] in F, I |- *.
    1: { revert I. unfold init. destruct (_ || _) eqn:E; [exact IH|discriminate]. }
    1: { destruct (_isInitialized (mgr s)) eqn:E.
         - now apply destroy_initialized.
         - rewrite destroy_uninitialized by exact E. now apply IH. }
    all: destruct F as [F1 F2]; rewrite F1; apply IH; now rewrite <- F2.
Qed.

(** C6, as stated, fails: [destroy()] returns at its guard when the manager
    is not initialized, and a subscriber added to such a manager is still
    there afterwards. *)
Lemma destroy_counterexample :
  reachable subscribed_uninitialized /\
  _subscribers (mgr (destroy subscribed_uninitialized)) = [7%nat] /\
  _subscribers (mgr (destroy subscribed_uninitialized)) <> [].
Proof.
  split; [|split].
  - apply reach_run, reach_new, pristine_browser.
  - reflexivity.
  - discriminate.
Qed.

(** C6 (amended): [destroy()] is idempotent.  On an initialized manager it
    removes the listeners and the ticker callback, empties the subscriber
    set and marks the manager uninitialized; on an uninitialized manager it
    changes nothing, subscribers included.  In every reachable state the
    listeners are removed and the manager is uninitialized after
    [destroy()]. *)
Theorem destroy_idempotent :
  (forall s, destroy (destroy s) = destroy s) /\
  (forall s, _isInitialized (mgr s) = true ->
     listening (host (destroy s)) = false /\
     _subscribers (mgr (destroy s)) = [] /\
     _isInitialized (mgr (destroy s)) = false) /\
  (forall s, _isInitialized (mgr s) = false -> destroy s = s) /\
  (forall s, reachable s ->
     listening (host (destroy s)) = false /\
     _isInitialized (mgr (destroy s)) = false).
Proof.
  split; [|split; [exact destroy_initialized|split; [exact destroy_uninitialized|]]].
  - intro s. destruct (_isInitialized (mgr s)) eqn:E.
    + apply destroy_uninitialized.
      exact (proj2 (proj2 (destroy_initialized s E))).
    + rewrite !(destroy_uninitialized s E). reflexivity.
  - intros s R. destruct (_isInitialized (mgr s)) eqn:E.
    + destruct (destroy_initialized s E) as (A & _ & B). now split.
    + rewrite destroy_uninitialized by exact E. split; [|exact E].
      now apply (reachable_in_step s R).
Qed.

Lemma destroy_idempotent_witness :
  _subscribers
    (mgr (destroy (run (ASubscribe 7%nat)
                     (new_CursorManager None (browser 800 600))))) = []
  /\ destroy subscribed_uninitialized = subscribed_uninitialized.
Proof.
  split.
  - apply (proj1 (proj2 destroy_idempotent)). reflexivity.
  - apply (proj1 (proj2 (proj2 destroy_idempotent))). reflexivity.
Defined.

(** ** C7: subscribe *)

Lemma Set_has_In (cb : CursorSubscriber) (l : list CursorSubscriber) :
  Set_has cb l = true <-> In cb l.
Proof.
  unfold Set_has. rewrite existsb_exists. split.
  - intros (c & Hc & E). apply Nat.eqb_eq in E. now subst.
  - intro H. exists cb. split; [exact H|apply Nat.eqb_refl].
Qed.

Lemma Set_add_In (cb c : CursorSubscriber) (l : list CursorSubscriber) :
  In c (Set_add cb l) <-> c = cb \/ In c l.
Proof.
  unfold Set_add. destruct (Set_has cb l) eqn:E.
  - apply Set_has_In in E. split; [now right|]. now intros [->|H].
  - rewrite in_app_iff. simpl. intuition congruence.
Qed.

Lemma Set_add_NoDup (cb : CursorSubscriber) (l : list CursorSubscriber) :
  NoDup l -> NoDup (Set_add cb l).
Proof.
  intro H. unfold Set_add. destruct (Set_has cb l) eqn:E; [exact H|].
  apply NoDup_app; [exact H|repeat constructor; intros []|].
  intros c Hc [<-|[]]. apply Set_has_In in Hc. congruence.
Qed.

Lemma Set_delete_In (cb c : CursorSubscriber) (l : list CursorSubscriber) :
  In c (Set_delete cb l) <-> c <> cb /\ In c l.
Proof.
  unfold Set_delete. rewrite filter_In, negb_true_iff, Nat.eqb_neq.
  split; intros [A B]; split; auto.
Qed.

(** C7: [subscribe(cb)] calls [cb] once, with the snapshot of the current
    state, before it returns: the call log grows by that one call.  The
    callback is a member of the subscriber set afterwards, the other members
    are the ones from before, nothing else of the state changes, and the
    handle that is returned removes the callback again. *)
Theorem subscribe_calls_once (cb : CursorSubscriber) (s : Sys) :
  calls (host (fst (subscribe cb s))) = calls (host s) ++ [(cb, getState s)] /\
  getState (fst (subscribe cb s)) = getState s /\
  In cb (_subscribers (mgr (fst (subscribe cb s)))) /\
  (forall c, In c (_subscribers (mgr (fst (subscribe cb s))))
             <-> c = cb \/ In c (_subscribers (mgr s))) /\
  mgr (fst (subscribe cb s))
  = set_subscribers (Set_add cb (_subscribers (mgr s))) (mgr s) /\
  dom (host (fst (subscribe cb s))) = dom (host s) /\
  ticker (host (fst (subscribe cb s))) = ticker (host s) /\
  ~ In cb (_subscribers (mgr (snd (subscribe cb s) (fst (subscribe cb s))))).
Proof.
  cbn [subscribe fst snd].
  split; [reflexivity|]. split; [reflexivity|]. split.
  { apply Set_add_In. now left. }
  split.
  { intro c. apply Set_add_In. }
  split; [reflexivity|]. split; [reflexivity|]. split; [reflexivity|].
  unfold unsubscribe. cbn [on_mgr mgr set_subscribers _subscribers].
  rewrite Set_delete_In. intros [A _]. now apply A.
Qed.

(** ** C8: setLerpFactor *)

(** C8: [setLerpFactor(f)] stores [max(0.01, min(1, f))], a value of
    [0.01, 1] that is [f] itself when [f] is in that interval; it changes no
    other field, the smoothed position in particular, and the next tick
    interpolates with the stored factor. *)
Theorem setLerpFactor_clamps (f : Q) (s : Sys) :
  lerpFactor (setLerpFactor f s) = Qmax 0.01 (Qmin 1 f) /\
  0.01 <= lerpFactor (setLerpFactor f s) <= 1 /\
  (0.01 <= f <= 1 -> lerpFactor (setLerpFactor f s) == f) /\
  (f <= 0.01 -> lerpFactor (setLerpFactor f s) == 0.01) /\
  (1 <= f -> lerpFactor (setLerpFactor f s) == 1) /\
  smoothPosition (setLerpFactor f s) = smoothPosition s /\
  setLerpFactor f s = mkSys (set_lerpFactor (Qmax 0.01 (Qmin 1 f)) (mgr s)) (host s) /\
  smoothPosition (_update (setLerpFactor f s))
  = mkPosition
      (lerp (x (smoothPosition s)) (x (position s)) (Qmax 0.01 (Qmin 1 f)))
      (lerp (y (smoothPosition s)) (y (position s)) (Qmax 0.01 (Qmin 1 f))).
Proof.
  unfold lerpFactor, smoothPosition, position. rewrite _update_mgr.
  cbn [setLerpFactor on_mgr mgr set_lerpFactor _lerpFactor _smoothPosition
       _position].
  assert (A : 0.01 <= Qmax 0.01 (Qmin 1 f)) by apply Q.le_max_l.
  assert (B : Qmax 0.01 (Qmin 1 f) <= 1).
  { apply Q.max_lub; [discriminate|apply Q.le_min_l]. }
  repeat split; try assumption.
  - intros [L U]. rewrite Q.max_r; [now apply Q.min_r|].
    rewrite Q.min_r; assumption.
  - intro U. apply Q.max_l. apply Qle_trans with f; [apply Q.le_min_r|exact U].
  - intro L. rewrite Q.min_l by exact L. apply Q.max_r. discriminate.
Qed.

Lemma setLerpFactor_clamps_witness :
  lerpFactor (setLerpFactor 0.5 pointer_at_10_5) == 0.5 /\
  lerpFactor (setLerpFactor (-3) pointer_at_10_5) == 0.01 /\
  lerpFactor (setLerpFactor 7 pointer_at_10_5) == 1.
Proof.
  split; [|split].
  - apply (proj1 (proj2 (proj2 (setLerpFactor_clamps 0.5 pointer_at_10_5)))).
    split; discriminate.
  - apply (proj1 (proj2 (proj2 (proj2
             (setLerpFactor_clamps (-3) pointer_at_10_5))))).
    discriminate.
  - apply (proj1 (proj2 (proj2 (proj2 (proj2
             (setLerpFactor_clamps 7 pointer_at_10_5)))))).
    discriminate.
Defined.

(** ** C9: the constructor does not clamp *)

(** C9: [getInstance({lerpFactor: f})], called while there is no instance,
    creates the instance with the lerp factor [f] as given, whatever the
    other options and the host; so factors such as 0, -1 or 2, which
    [setLerpFactor] would clamp, are factors of reachable managers. *)
Theorem construction_does_not_clamp :
  (forall f autoInit initialStyle h,
     let r := getInstance (Some (mkOptions (Some f) autoInit initialStyle))
                (mkProgram None h) in
     _lerpFactor (fst r) = f /\ instance (snd r) = Some (fst r)) /\
  (forall f h, pristine h ->
     exists s, reachable s /\ lerpFactor s = f /\
               mgr s = fst (getInstance (Some (mkOptions (Some f) None None))
                              (mkProgram None h))) /\
  (exists s, reachable s /\ lerpFactor s = 2 /\ ~ lerpFactor s <= 1 /\
             ~ lerpFactor (setLerpFactor 2 s) == 2) /\
  (exists s, reachable s /\ lerpFactor s = -1 /\ ~ 0 < lerpFactor s).
Proof.
  split; [|split; [|split]].
  - intros f autoInit initialStyle h. cbv zeta.
    cbn [getInstance instance phost fst snd].
    split; [|reflexivity].
    destruct (new_CursorManager_mgr
                (Some (mkOptions (Some f) autoInit initialStyle)) h) as [E|E];
      cbv zeta in E; rewrite E; reflexivity.
  - intros f h P.
    exists (new_CursorManager (Some (mkOptions (Some f) None None)) h).
    split; [now apply reach_new|]. split; [|reflexivity].
    unfold lerpFactor.
    destruct (new_CursorManager_mgr (Some (mkOptions (Some f) None None)) h)
      as [E|E]; cbv zeta in E; rewrite E; reflexivity.
  - exists (new_CursorManager (Some (mkOptions (Some 2) None None)) headless).
    split; [apply reach_new, pristine_headless|].
    split; [reflexivity|]. split; intro H; vm_compute in H; congruence.
  - exists (new_CursorManager (Some (mkOptions (Some (-1)) None None)) headless).
    split; [apply reach_new, pristine_headless|].
    split; [reflexivity|]. intro H; vm_compute in H; congruence.
Qed.

Lemma construction_does_not_clamp_witness :
  exists s, reachable s /\ lerpFactor s = 5 /\
            mgr s = fst (getInstance (Some (mkOptions (Some 5) None None))
                           (mkProgram None (browser 800 600))).
Proof.
  exact (proj1 (proj2 construction_does_not_clamp) 5 (browser 800 600)
           (pristine_browser 800 600)).
Defined.

(** ** C10: the mouse-enter handler *)

(** C10: the mouse-enter handler sets [isVisible] and [isInViewport] to
    true and leaves every other field and the host as they are; it pops no
    style.  So after [hide()] and a mouse-enter event the cursor counts as
    visible while the style on top of the stack is "none". *)
Theorem mouse_enter_frame :
  (forall s,
     isVisible (_handleMouseEnter s) = true /\
     isInViewport (_handleMouseEnter s) = true /\
     stack (_handleMouseEnter s) = stack s /\
     position (_handleMouseEnter s) = position s /\
     smoothPosition (_handleMouseEnter s) = smoothPosition s /\
     velocity (_handleMouseEnter s) = velocity s /\
     _previousPosition (mgr (_handleMouseEnter s)) = _previousPosition (mgr s) /\
     lerpFactor (_handleMouseEnter s) = lerpFactor s /\
     _subscribers (mgr (_handleMouseEnter s)) = _subscribers (mgr s) /\
     _isInitialized (mgr (_handleMouseEnter s)) = _isInitialized (mgr s) /\
     host (_handleMouseEnter s) = host s) /\
  (forall s, style (_handleMouseEnter (hide s)) = s_none /\
             isVisible (_handleMouseEnter (hide s)) = true) /\
  (reachable hidden_then_entered /\
   isVisible hidden_then_entered = true /\
   style hidden_then_entered = s_none /\
   stack hidden_then_entered = [s_default; s_none]).
Proof.
  split; [|split].
  - intro s. repeat split.
  - intro s. split; [|reflexivity].
    unfold style. cbn [_handleMouseEnter on_mgr mgr set_isVisible
                       set_isInViewport _styleStack].
    rewrite hide_stack. apply last_last.
  - split; [|repeat split].
    apply reach_run, reach_run, reach_new, pristine_browser.
Qed.

(** * Further properties of the manager *)

(** ** What [show] returns *)

Lemma set_styleStack_id (m : Manager) : set_styleStack (_styleStack m) m = m.
Proof. destruct m; reflexivity. Qed.

Lemma set_body_cursor_twice (c c' : CursorStyle) (h : Host) :
  set_body_cursor c (set_body_cursor c' h) = set_body_cursor c h.
Proof. destruct h as [[d|] t l]; reflexivity. Qed.

(** The loop does nothing once its condition fails. *)
Lemma show_loop_exit (fuel : nat) (s : Sys) :
  (length (stack s) <= 1)%nat \/ style s <> s_none -> show_loop fuel s = s.
Proof.
  intro H. destruct fuel as [|k]; [reflexivity|]. simpl.
  destruct H as [H|H].
  - apply Nat.ltb_ge in H. now rewrite H.
  - apply CursorStyle_eqb_neq in H. rewrite H. now rewrite andb_false_r.
Qed.

Lemma show_loop_strip (k : nat) :
  forall (fuel : nat) (s : Sys) (l : list CursorStyle),
    stack s = l ++ repeat s_none k ->
    l <> [] ->
    last l s_default <> s_none \/ length l = 1%nat ->
    (k <= fuel)%nat ->
    stack (show_loop fuel s) = l.
Proof.
  induction k as [|k IH]; intros fuel s l E N T F.
  - simpl in E. rewrite app_nil_r in E. rewrite show_loop_exit; [exact E|].
    unfold style. rewrite E. destruct T as [T|T]; [now right|left; lia].
  - destruct fuel as [|fuel]; [lia|].
    cbn [repeat] in E. rewrite repeat_cons, app_assoc in E.
    assert (L : (1 <? length (stack s))%nat = true).
    { apply Nat.ltb_lt. rewrite E, !length_app. apply nonempty_length in N.
      simpl. lia. }
    assert (Y : style s = s_none) by (unfold style; rewrite E; apply last_last).
    cbn [show_loop]. rewrite L, Y. cbn [CursorStyle_eqb andb].
    apply IH; [|exact N|exact T|lia].
    rewrite popStyle_stack, L, E. apply removelast_last.
Qed.

(** Every non-empty stack is a stack that [show] keeps, under a run of
    "none" entries. *)
Lemma stack_decompose (l0 : list CursorStyle) :
  l0 <> [] ->
  exists l k, l0 = l ++ repeat s_none k /\ l <> [] /\
              (last l s_default <> s_none \/ length l = 1%nat).
Proof.
  induction l0 as [|c l0 IH] using rev_ind; [congruence|]. intros _.
  destruct l0 as [|b l0].
  - exists [c], 0%nat. repeat split; [discriminate|now right].
  - destruct IH as (l & k & E & N & T); [discriminate|].
    destruct (CursorStyle_eqb c s_none) eqn:C.
    + apply CursorStyle_eqb_eq in C. subst c.
      exists l, (S k). split; [|now split].
      rewrite E, <- app_assoc. f_equal. cbn [repeat]. now rewrite repeat_cons.
    + apply CursorStyle_eqb_neq in C.
      exists ((b :: l0) ++ [c]), 0%nat. cbn [repeat]. rewrite app_nil_r.
      split; [reflexivity|]. split; [discriminate|].
      left. now rewrite last_last.
Qed.

(** The loop does not make the document disappear. *)
Lemma show_loop_dom (fuel : nat) :
  forall (s : Sys) (d : Dom),
    dom (host s) = Some d -> exists d', dom (host (show_loop fuel s)) = Some d'.
Proof.
  induction fuel as [|f IH]; intros s d D; simpl; [now exists d|].
  destruct (_ && _); [|now exists d].
  unfold popStyle. destruct (1 <? _)%nat; [|now apply (IH s d)].
  eapply IH. cbn [on_host on_mgr host]. unfold set_body_cursor.
  rewrite D. reflexivity.
Qed.

Lemma show_stack_strip (s : Sys) (l : list CursorStyle) (k : nat) :
  stack s = l ++ repeat s_none k ->
  l <> [] ->
  last l s_default <> s_none \/ length l = 1%nat ->
  stack (show s) = l.
Proof.
  intros E N T. rewrite show_stack.
  apply (show_loop_strip k); [exact E|exact N|exact T|].
  rewrite E, length_app, repeat_length. lia.
Qed.

Lemma show_host (s : Sys) :
  host (show s)
  = set_body_cursor (style (show s))
      (host (show_loop (length (stack s)) (on_mgr (set_isVisible true) s))).
Proof. reflexivity. Qed.

(** X1: [show()] computes the stack without its trailing "none" entries.
    A stack that is [l] under [k] entries "none", where [l] is not empty and
    ends in another style or is the base style alone, becomes [l]: the
    cursor is marked visible, the style is the top of [l], and on a page the
    platform cursor is set to it.  Every non-empty stack has that form. *)
Theorem show_strips_trailing_none (s : Sys) (l : list CursorStyle) (k : nat) :
  stack s = l ++ repeat s_none k ->
  l <> [] ->
  last l s_default <> s_none \/ length l = 1%nat ->
  (stack (show s) = l /\
   style (show s) = last l s_default /\
   isVisible (show s) = true /\
   (forall d, dom (host s) = Some d ->
      exists d', dom (host (show s)) = Some d' /\
                 bodyCursor d' = Some (last l s_default))) /\
  (forall s0, stack s0 <> [] ->
     exists l0 k0, stack s0 = l0 ++ repeat s_none k0 /\ l0 <> [] /\
                   (last l0 s_default <> s_none \/ length l0 = 1%nat)).
Proof.
  intros E N T. pose proof (show_stack_strip s l k E N T) as R.
  split; [|intros s0 N0; now apply stack_decompose].
  split; [exact R|]. split; [unfold style; now rewrite R|].
  split; [apply show_spec|].
  intros d D. rewrite show_host. unfold style at 1. rewrite R.
  destruct (show_loop_dom (length (stack s)) (on_mgr (set_isVisible true) s) d D)
    as [d2 D2].
  unfold set_body_cursor. rewrite D2.
  eexists; split; reflexivity.
Qed.

Lemma show_strips_trailing_none_witness :
  stack (show (run AHide (run AHide (run (APushStyle s_grab)
                 (new_CursorManager None headless)))))
  = [s_default; s_grab].
Proof.
  refine (proj1 (proj1 (show_strips_trailing_none
            (run AHide (run AHide (run (APushStyle s_grab)
                 (new_CursorManager None headless))))
            [s_default; s_grab] 2 eq_refl _ _))).
  - discriminate.
  - left. discriminate.
Defined.

(** X2: [show()] is idempotent: a second call changes nothing, whatever
    the state. *)
Theorem show_idempotent (s : Sys) : show (show s) = show s.
Proof.
  destruct (show_spec s) as (V & _ & X).
  set (t := show s) in *.
  assert (M : on_mgr (set_isVisible true) t = t).
  { unfold isVisible in V. unfold on_mgr.
    destruct t as [m h]. cbn [mgr host] in *. f_equal.
    destruct m; cbn in V |- *. now subst. }
  assert (H1 : show t = mkSys (mgr t) (set_body_cursor (style t) (host t))).
  { unfold show. cbv zeta. rewrite M, show_loop_exit by exact X. reflexivity. }
  assert (H2 : set_body_cursor (style t) (host t) = host t).
  { subst t. rewrite show_host. apply set_body_cursor_twice. }
  rewrite H1, H2. now destruct t.
Qed.

(** ** Nested hides, nested pushes *)

Lemma hides_stack (n : nat) (s : Sys) :
  stack (Nat.iter n hide s) = stack s ++ repeat s_none n.
Proof.
  induction n as [|n IH]; [cbn [repeat]|rewrite Nat.iter_succ; cbn [repeat]].
  - change (Nat.iter 0 hide s) with s. now rewrite app_nil_r.
  - rewrite hide_stack, IH, <- app_assoc. f_equal. apply eq_sym, repeat_cons.
Qed.

(** X3: calls of [hide()] do not nest: after any number of them one
    [show()] brings back the stack from before the first one (its top not
    being "none", or the base style being alone) and marks the cursor
    visible, and further calls of [show()] pop nothing more. *)
Theorem hides_undone_by_one_show (n : nat) (s : Sys) :
  stack s <> [] ->
  style s <> s_none \/ length (stack s) = 1%nat ->
  stack (Nat.iter n hide s) = stack s ++ repeat s_none n /\
  (n <> 0%nat -> isVisible (Nat.iter n hide s) = false) /\
  stack (show (Nat.iter n hide s)) = stack s /\
  isVisible (show (Nat.iter n hide s)) = true /\
  forall m, stack (Nat.iter m show (show (Nat.iter n hide s))) = stack s.
Proof.
  intros N T. pose proof (hides_stack n s) as H.
  assert (R : stack (show (Nat.iter n hide s)) = stack s)
    by (now apply (show_stack_strip _ (stack s) n)).
  split; [exact H|]. split.
  { destruct n as [|n]; [congruence|]. intros _. rewrite Nat.iter_succ.
    reflexivity. }
  split; [exact R|]. split; [apply show_spec|].
  intro m. induction m as [|m IH]; [exact R|].
  rewrite Nat.iter_succ. apply (show_stack_strip _ (stack s) 0).
  - rewrite IH. cbn [repeat]. now rewrite app_nil_r.
  - exact N.
  - exact T.
Qed.

Lemma hides_undone_by_one_show_witness :
  stack (show (Nat.iter 3 hide (run (APushStyle s_text)
                                  (new_CursorManager None headless))))
  = [s_default; s_text].
Proof.
  refine (proj1 (proj2 (proj2 (hides_undone_by_one_show 3
            (run (APushStyle s_text) (new_CursorManager None headless)) _ _)))).
  - discriminate.
  - left. discriminate.
Defined.

Lemma pushStyle_stack (c : CursorStyle) (s : Sys) :
  stack (pushStyle c s) = stack s ++ [c].
Proof. reflexivity. Qed.

(** What [popStyle] does to the manager depends on the manager alone. *)
Lemma popStyle_mgr_eq (s : Sys) :
  mgr (popStyle s)
  = if (1 <? length (stack s))%nat
    then set_styleStack (removelast (stack s)) (mgr s) else mgr s.
Proof. unfold popStyle. destruct (1 <? length (stack s))%nat; reflexivity. Qed.

Lemma pops_mgr_ext (n : nat) (s1 s2 : Sys) :
  mgr s1 = mgr s2 -> mgr (Nat.iter n popStyle s1) = mgr (Nat.iter n popStyle s2).
Proof.
  intro E. induction n as [|n IH]; [exact E|].
  rewrite !Nat.iter_succ. now rewrite !popStyle_mgr_eq, IH.
Qed.

Lemma popStyle_pushStyle_mgr (c : CursorStyle) (s : Sys) :
  stack s <> [] -> mgr (popStyle (pushStyle c s)) = mgr s.
Proof.
  intro N. rewrite popStyle_mgr_eq, pushStyle_stack.
  assert (L : (1 <? length (stack s ++ [c]))%nat = true).
  { apply Nat.ltb_lt. rewrite length_app. apply nonempty_length in N.
    simpl. lia. }
  rewrite L, removelast_last. cbn [pushStyle on_host on_mgr mgr].
  destruct (mgr s); reflexivity.
Qed.

Lemma pushes_nonempty (cs : list CursorStyle) (s : Sys) :
  stack s <> [] -> stack (fold_left (fun t c => pushStyle c t) cs s) <> [].
Proof.
  revert s. induction cs as [|c cs IH]; intros s N; cbn [fold_left]; [exact N|].
  apply IH. rewrite pushStyle_stack. now destruct (stack s).
Qed.

(** X4: pushes and pops pair up like brackets.  On a non-empty stack
    [popStyle()] after [pushStyle(c)] gives back the manager as it was, the
    style in between being [c]; and after any series of pushes, as many pops
    give back the manager from before the first push.  On a page the
    platform cursor then shows the style of that manager. *)
Theorem push_pop_round_trip (s : Sys) :
  stack s <> [] ->
  (forall c, style (pushStyle c s) = c /\
             mgr (popStyle (pushStyle c s)) = mgr s) /\
  (forall cs,
     mgr (Nat.iter (length cs) popStyle
            (fold_left (fun t c => pushStyle c t) cs s)) = mgr s) /\
  (forall c d, dom (host s) = Some d ->
     exists d', dom (host (popStyle (pushStyle c s))) = Some d' /\
                bodyCursor d' = Some (style s)).
Proof.
  intro N. split; [|split].
  - intro c. split; [|now apply popStyle_pushStyle_mgr].
    unfold style. rewrite pushStyle_stack. apply last_last.
  - intro cs. induction cs as [|c cs IH] using rev_ind; [reflexivity|].
    rewrite length_app, Nat.add_comm, fold_left_app. cbn [length Nat.add fold_left].
    rewrite Nat.iter_succ_r.
    rewrite (pops_mgr_ext _ _ (fold_left (fun t c0 => pushStyle c0 t) cs s));
      [exact IH|].
    apply popStyle_pushStyle_mgr. now apply pushes_nonempty.
  - intros c d D.
    assert (L : (1 <? length (stack (pushStyle c s)))%nat = true).
    { apply Nat.ltb_lt. rewrite pushStyle_stack, length_app.
      apply nonempty_length in N. simpl. lia. }
    unfold popStyle at 1. rewrite L. cbn [on_host host].
    assert (Y : style (on_mgr (set_styleStack (removelast (stack (pushStyle c s))))
                         (pushStyle c s)) = style s).
    { unfold style. cbn [on_mgr mgr set_styleStack _styleStack].
      now rewrite pushStyle_stack, removelast_last. }
    rewrite Y. cbn [on_mgr host pushStyle on_host].
    unfold set_body_cursor at 2. rewrite D.
    unfold set_body_cursor. cbn [dom]. eexists; split; reflexivity.
Qed.

Lemma push_pop_round_trip_witness :
  mgr (Nat.iter 2 popStyle
         (fold_left (fun t c => pushStyle c t) [s_pointer; s_grab]
            (new_CursorManager None headless)))
  = mgr (new_CursorManager None headless).
Proof.
  refine (proj1 (proj2 (push_pop_round_trip
                          (new_CursorManager None headless) _))
            [s_pointer; s_grab]).
  discriminate.
Defined.

Lemma pops_stack (n : nat) (s : Sys) :
  stack s <> [] ->
  stack (Nat.iter n popStyle s)
  = firstn (Nat.max 1 (length (stack s) - n)) (stack s).
Proof.
  intro N. apply nonempty_length in N.
  induction n as [|n IH].
  - change (Nat.iter 0 popStyle s) with s.
    rewrite Nat.sub_0_r, Nat.max_r by exact N. now rewrite firstn_all.
  - rewrite Nat.iter_succ, popStyle_stack, IH, length_firstn.
    destruct (Nat.le_gt_cases (length (stack s) - n) 1) as [C|C].
    + rewrite !Nat.max_l by lia.
      replace (1 <? Nat.min 1 (length (stack s)))%nat with false; [reflexivity|].
      symmetry. apply Nat.ltb_ge. lia.
    + rewrite (Nat.max_r 1 (length (stack s) - n)) by lia.
      rewrite (Nat.max_r 1 (length (stack s) - S n)) by lia.
      replace (1 <? Nat.min (length (stack s) - n) (length (stack s)))%nat
        with true by (symmetry; apply Nat.ltb_lt; lia).
      replace (length (stack s) - n)%nat with (S (length (stack s) - S n))
        by lia.
      apply removelast_firstn. lia.
Qed.

(** X5: popping more often than there are overrides stops at the base
    style: [n] calls of [popStyle()] leave the first [max 1 (length - n)]
    entries, so from [length - 1] calls on the stack is the base style alone
    and stays so. *)
Theorem pops_stop_at_base (n : nat) (s : Sys) :
  stack s <> [] ->
  stack (Nat.iter n popStyle s)
  = firstn (Nat.max 1 (length (stack s) - n)) (stack s) /\
  ((length (stack s) - 1 <= n)%nat ->
   stack (Nat.iter n popStyle s) = firstn 1 (stack s) /\
   nth_error (stack (Nat.iter n popStyle s)) 0 = nth_error (stack s) 0).
Proof.
  intro N. pose proof (pops_stack n s N) as G.
  split; [exact G|]. intro H. rewrite G, Nat.max_l by lia.
  split; [reflexivity|]. destruct (stack s); [congruence|reflexivity].
Qed.

Lemma pops_stop_at_base_witness :
  stack (Nat.iter 5 popStyle
           (run (APushStyle s_grab) (run (APushStyle s_pointer)
              (new_CursorManager None headless))))
  = [s_default].
Proof.
  refine (proj1 (proj2 (pops_stop_at_base 5
            (run (APushStyle s_grab) (run (APushStyle s_pointer)
               (new_CursorManager None headless))) _) _)).
  - discriminate.
  - simpl. lia.
Defined.

(** ** Hovering an element that hides the cursor *)

(** X6: hovering an element of [useCursorHide] pushes "none" without
    marking the cursor invisible, and leaving it gives back the manager.
    A [show()] during the hover leaves the stack that [show()] leaves
    without the hover, the hover's "none" being popped with the rest, and
    the leave that follows pops one entry more.  When the top before the
    hover is not "none", or the base style is alone, [show()] during the
    hover gives back the stack from before it and the leave pops as
    [popStyle()] would have before the hover. *)
Theorem show_during_hover_none (s : Sys) :
  stack s <> [] ->
  (isVisible (useCursorHide_handleEnter s) = isVisible s /\
   style (useCursorHide_handleEnter s) = s_none /\
   mgr (useCursorHover_handleLeave (useCursorHide_handleEnter s)) = mgr s) /\
  (stack (show (useCursorHide_handleEnter s)) = stack (show s) /\
   stack (useCursorHover_handleLeave (show (useCursorHide_handleEnter s)))
   = stack (popStyle (show s))) /\
  (style s <> s_none \/ length (stack s) = 1%nat ->
   stack (show (useCursorHide_handleEnter s)) = stack s /\
   stack (useCursorHover_handleLeave (show (useCursorHide_handleEnter s)))
   = stack (popStyle s)).
Proof.
  intro N. unfold useCursorHide_handleEnter, useCursorHover_handleEnter,
    useCursorHover_handleLeave.
  destruct (stack_decompose (stack s) N) as (l & k & E & Nl & T).
  assert (A : stack (show s) = l) by (now apply (show_stack_strip s l k)).
  assert (B : stack (show (pushStyle s_none s)) = l).
  { apply (show_stack_strip _ l (S k)); [|exact Nl|exact T].
    rewrite pushStyle_stack, E, <- app_assoc. f_equal.
    cbn [repeat]. apply eq_sym, repeat_cons. }
  split; [|split].
  - split; [reflexivity|]. split; [|now apply popStyle_pushStyle_mgr].
    unfold style. rewrite pushStyle_stack. apply last_last.
  - split; [now rewrite A, B|]. now rewrite !popStyle_stack, A, B.
  - intro T0.
    assert (R : stack (show (pushStyle s_none s)) = stack s).
    { apply (show_stack_strip _ (stack s) 1); [reflexivity|exact N|exact T0]. }
    split; [exact R|]. now rewrite !popStyle_stack, R.
Qed.

Lemma show_during_hover_none_witness :
  stack (useCursorHover_handleLeave
           (show (useCursorHide_handleEnter
                    (run (APushStyle s_none) (run (APushStyle s_pointer)
                       (new_CursorManager None headless))))))
  = [s_default].
Proof.
  refine (eq_trans
            (proj2 (proj1 (proj2 (show_during_hover_none
               (run (APushStyle s_none) (run (APushStyle s_pointer)
                  (new_CursorManager None headless)))
               _))))
            eq_refl).
  discriminate.
Defined.

(** ** The base style *)

(** X7: [setBaseStyle(c)] replaces the entry at index 0 and nothing else of
    the stack.  Under an override the style and the host stay as they are,
    and [c] shows once the overrides are popped; on a one-entry stack the
    style becomes [c] and is passed on to the platform.  Of two calls the
    later one wins. *)
Theorem setBaseStyle_replaces_base (c : CursorStyle) (s : Sys) :
  stack s <> [] ->
  stack (setBaseStyle c s) = c :: tl (stack s) /\
  ((1 < length (stack s))%nat ->
   style (setBaseStyle c s) = style s /\ host (setBaseStyle c s) = host s) /\
  (length (stack s) = 1%nat ->
   style (setBaseStyle c s) = c /\
   host (setBaseStyle c s) = set_body_cursor c (host s)) /\
  (forall n, (length (stack s) - 1 <= n)%nat ->
     stack (Nat.iter n popStyle (setBaseStyle c s)) = [c]) /\
  (forall c', stack (setBaseStyle c' (setBaseStyle c s))
              = stack (setBaseStyle c' s)).
Proof.
  intro N.
  assert (E : stack (setBaseStyle c s) = c :: tl (stack s)).
  { rewrite setBaseStyle_stack. now destruct (stack s). }
  split; [exact E|]. split; [|split; [|split]].
  - intro L. split.
    + unfold style. rewrite E. destruct (stack s) as [|b [|b' t]];
        simpl in L; try lia. reflexivity.
    + unfold setBaseStyle. cbv zeta.
      replace (length (stack (on_mgr _ s)) =? 1)%nat with false; [reflexivity|].
      symmetry. apply Nat.eqb_neq.
      cbn [on_mgr mgr set_styleStack _styleStack].
      destruct (stack s) as [|b [|b' t]]; simpl in L |- *; lia.
  - intro L. destruct (stack s) as [|b [|b' t]] eqn:S; simpl in L; try lia.
    split.
    + unfold style. now rewrite E.
    + unfold setBaseStyle. cbv zeta. rewrite S. reflexivity.
  - intros n H.
    assert (N' : stack (setBaseStyle c s) <> []) by (rewrite E; discriminate).
    rewrite (pops_stack n _ N'), E.
    assert (Ln : length (c :: tl (stack s)) = length (stack s)).
    { destruct (stack s); [congruence|reflexivity]. }
    rewrite Ln, Nat.max_l by lia. reflexivity.
  - intro c'. rewrite !setBaseStyle_stack. now destruct (stack s).
Qed.

Lemma setBaseStyle_replaces_base_witness :
  style (setBaseStyle s_wait (run (APushStyle s_pointer)
                                (new_CursorManager None headless)))
  = s_pointer /\
  stack (Nat.iter 1 popStyle
           (setBaseStyle s_wait (run (APushStyle s_pointer)
                                   (new_CursorManager None headless))))
  = [s_wait].
Proof.
  pose proof (setBaseStyle_replaces_base s_wait
                (run (APushStyle s_pointer) (new_CursorManager None headless)))
    as H.
  destruct H as (_ & A & _ & B & _); [discriminate|].
  split.
  - apply A. simpl. lia.
  - apply B. simpl. lia.
Defined.

(** ** The platform cursor *)











(** ** The life cycle: init, destroy and what the platform delivers *)

Lemma registrations_set_body_cursor (c : CursorStyle) (h : Host) :
  registrations (set_body_cursor c h) = registrations h.
Proof. destruct h as [[d|] t l]; reflexivity. Qed.

Lemma popStyle_registrations (s : Sys) :
  registrations (host (popStyle s)) = registrations (host s).
Proof.
  unfold popStyle. destruct (1 <? length (stack s))%nat; [|reflexivity].
  apply registrations_set_body_cursor.
Qed.

Lemma show_loop_registrations (fuel : nat) (s : Sys) :
  registrations (host (show_loop fuel s)) = registrations (host s).
Proof.
  revert s; induction fuel as [|k IH]; intro s; simpl; [reflexivity|].
  destruct ((1 <? length (stack s))%nat && CursorStyle_eqb (style s) s_none);
    [|reflexivity].
  rewrite IH. apply popStyle_registrations.
Qed.

(** Only [init] and [destroy] change what is registered. *)
Lemma run_registrations_other (a : Action) (s : Sys) :
  match a with
  | AInit | ADestroy => True
  | _ => registrations (host (run a s)) = registrations (host s)
  end.
Proof.
  destruct a; cbn [run]; try exact I.
  - unfold dispatch. destruct (dom (host s)) as [d|]; [|reflexivity].
    destruct e; [destruct (onMouseMove d)|destruct (onMouseEnter d)
                |destruct (onMouseLeave d)]; reflexivity.
  - unfold frame. destruct (ticker (host s)); [|reflexivity].
    unfold _update. now rewrite _notifySubscribers_host.
  - reflexivity.
  - unfold hide, pushStyle. cbv zeta. cbn [on_host on_mgr host].
    now rewrite !registrations_set_body_cursor.
  - unfold show. cbv zeta. cbn [on_host host].
    now rewrite registrations_set_body_cursor, show_loop_registrations.
  - unfold pushStyle. cbn [on_host host].
    now rewrite registrations_set_body_cursor.
  - apply popStyle_registrations.
  - unfold setBaseStyle. cbv zeta.
    match goal with |- context [if ?b then _ else _] => destruct b end;
      [|reflexivity].
    cbn [on_host host]. now rewrite registrations_set_body_cursor.
  - reflexivity.
  - reflexivity.
  - reflexivity.
Qed.

Lemma headless_never_initialized (options : option CursorManagerOptions)
  (h : Host) (l : list Action) :
  dom h = None ->
  _isInitialized (mgr (run_all l (new_CursorManager options h))) = false.
Proof.
  intro D.
  assert (N : _isInitialized (mgr (new_CursorManager options h)) = false
              /\ dom (host (new_CursorManager options h)) = None).
  { unfold new_CursorManager. cbv zeta.
    destruct (match opt_autoInit _ with Some b => b | None => true end);
      [|now split].
    unfold init, window_undefined. cbn [mgr host]. rewrite D.
    rewrite orb_true_r. now split. }
  generalize dependent (new_CursorManager options h). intros t N.
  revert t N. induction l as [|a l IH]; intros t [I Dt]; [exact I|].
  cbn [run_all fold_left]. apply IH.
  pose proof (run_registrations_other a t) as F.
  pose proof (run_listening_other a t) as G.
  destruct a; cbn [run] in F, G |- *.
  1: { unfold init, window_undefined. rewrite Dt, orb_true_r. now split. }
  1: { rewrite (destroy_uninitialized t I). now split. }
  all: destruct G as [_ G]; split; [now rewrite G|];
    unfold registrations in F; rewrite Dt in F;
    apply (f_equal snd) in F; cbn [snd] in F;
    match type of F with
    | match ?o with _ => _ end = None => destruct o; [discriminate|reflexivity]
    end.
Qed.

(** X9: [init()] is idempotent.  Without a window it does nothing, so a
    manager built on a headless host is never initialized, whatever is
    called on it; on a page an uninitialized manager gets its three
    listeners and its ticker callback registered and is marked
    initialized. *)
Theorem init_registers_once (s : Sys) :
  init (init s) = init s /\
  (dom (host s) = None -> init s = s) /\
  (_isInitialized (mgr s) = true -> init s = s) /\
  (forall d, dom (host s) = Some d -> _isInitialized (mgr s) = false ->
     _isInitialized (mgr (init s)) = true /\
     registered (host (init s)) = true) /\
  (forall options h, dom h = None ->
     forall l, _isInitialized (mgr (run_all l (new_CursorManager options h)))
               = false).
Proof.
  assert (G1 : dom (host s) = None -> init s = s).
  { intro D. unfold init, window_undefined. rewrite D.
    now rewrite orb_true_r. }
  assert (G2 : _isInitialized (mgr s) = true -> init s = s).
  { intro I. unfold init. now rewrite I. }
  split; [|split; [exact G1|split; [exact G2|split]]].
  - destruct (_isInitialized (mgr s) || window_undefined (host s)) eqn:C.
    + assert (E : init s = s) by (unfold init; now rewrite C).
      now rewrite !E.
    + assert (E : _isInitialized (mgr (init s)) = true)
        by (unfold init; now rewrite C).
      unfold init at 1. now rewrite E.
  - intros d D I. unfold init, window_undefined. rewrite D, I. cbn.
    unfold registered, registrations, set_listeners. rewrite D. cbn.
    now split.
  - intros options h D l. now apply headless_never_initialized.
Qed.

Lemma init_registers_once_witness :
  registered (host (init (new_CursorManager
                            (Some (mkOptions None (Some false) None))
                            (browser 800 600)))) = true
  /\ init (new_CursorManager None headless) = new_CursorManager None headless.
Proof.
  split.
  - refine (proj2 (proj1 (proj2 (proj2 (proj2
              (init_registers_once
                 (new_CursorManager (Some (mkOptions None (Some false) None))
                    (browser 800 600))))))
              _ eq_refl eq_refl)).
  - exact (proj1 (proj2 (init_registers_once (new_CursorManager None headless)))
             eq_refl).
Defined.

Lemma reachable_registered (s : Sys) :
  reachable s -> _isInitialized (mgr s) = true -> registered (host s) = true.
Proof.
  induction 1 as [options h P|a s R IH].
  - unfold new_CursorManager. cbv zeta.
    destruct (match opt_autoInit _ with Some b => b | None => true end);
      [|discriminate].
    unfold init, window_undefined. cbn [mgr host set_lerpFactor set_styleStack
                                          fresh _isInitialized orb].
    destruct (dom h) as [d|] eqn:D; [|discriminate]. intros _.
    cbn [on_mgr on_host host]. unfold registered, registrations, set_listeners.
    cbn [host]. rewrite D. reflexivity.
  - pose proof (run_registrations_other a s) as F.
    pose proof (run_listening_other a s) as G. intro I.
    destruct a; cbn [run] in F, G, I |- *.
    1: { revert I. unfold init at 1 2.
         destruct (_isInitialized (mgr s)) eqn:E; [intros _; now apply IH|].
         cbn [orb]. unfold window_undefined.
         destruct (dom (host s)) as [d|] eqn:D; [intros _|congruence].
         cbn [on_mgr on_host host]. unfold registered, registrations,
           set_listeners. rewrite D. reflexivity. }
    1: { destruct (_isInitialized (mgr s)) eqn:E.
         - destruct (destroy_initialized s E) as (_ & _ & Z). congruence.
         - rewrite (destroy_uninitialized s E) in I. congruence. }
    all: unfold registered; rewrite F; apply IH; destruct G as [_ G];
      now rewrite <- G.
Qed.

(** X10: in every reachable state the manager is initialized exactly when
    its ticker callback and its three listeners are registered: an
    initialized manager has all four registered, on a page, and an
    uninitialized one has none of them. *)
Theorem registered_iff_initialized (s : Sys) :
  reachable s ->
  (_isInitialized (mgr s) = true <-> registered (host s) = true) /\
  (_isInitialized (mgr s) = false <-> listening (host s) = false) /\
  (_isInitialized (mgr s) = true -> exists d, dom (host s) = Some d).
Proof.
  intro R. pose proof (reachable_registered s R) as A.
  pose proof (reachable_in_step s R) as B. unfold in_step in B.
  assert (C : registered (host s) = true -> listening (host s) = true).
  { unfold registered, registrations, listening.
    destruct (ticker (host s)); [reflexivity|discriminate]. }
  split; [|split].
  - split; [exact A|]. intro H.
    destruct (_isInitialized (mgr s)); [reflexivity|].
    rewrite B in C by reflexivity. now apply C.
  - split; [exact B|]. intro H.
    destruct (_isInitialized (mgr s)); [|reflexivity].
    rewrite C in H by now apply A. discriminate.
  - intro I. apply A in I. unfold registered, registrations in I.
    destruct (dom (host s)) as [d|]; [now exists d|].
    destruct (ticker (host s)); discriminate.
Qed.

Lemma registered_iff_initialized_witness :
  _isInitialized (mgr (run ADestroy pointer_at_10_5)) = false
  <-> listening (host (run ADestroy pointer_at_10_5)) = false.
Proof.
  refine (proj1 (proj2 (registered_iff_initialized
                          (run ADestroy pointer_at_10_5) _))).
  apply reach_run, reach_run, reach_new, pristine_browser.
Defined.

(** X11: the platform reaches the manager only while it is initialized.
    In a reachable state of an initialized manager every pointer event runs
    its handler and every frame runs the update; after [destroy()], and
    before [init()], events and frames leave the state as it is. *)
Theorem delivery_needs_init (s : Sys) :
  reachable s ->
  (_isInitialized (mgr s) = true ->
   (forall e, dispatch e s = handle e s) /\ frame s = _update s) /\
  (_isInitialized (mgr s) = false ->
   (forall e, dispatch e s = s) /\ frame s = s) /\
  (forall e, dispatch e (destroy s) = destroy s) /\
  frame (destroy s) = destroy s /\
  (forall l, run_all (map AEvent l) (destroy s) = destroy s).
Proof.
  intro R.
  assert (U : forall t, reachable t -> _isInitialized (mgr t) = false ->
                        (forall e, dispatch e t = t) /\ frame t = t).
  { intros t Rt I. pose proof (reachable_in_step t Rt I) as L.
    unfold listening in L. apply orb_false_iff in L. destruct L as [T L].
    split.
    - intro e. unfold dispatch. destruct (dom (host t)) as [d|]; [|reflexivity].
      apply orb_false_iff in L. destruct L as [L L3].
      apply orb_false_iff in L. destruct L as [L1 L2].
      destruct e; [now rewrite L1|now rewrite L2|now rewrite L3].
    - unfold frame. now rewrite T. }
  assert (D : reachable (destroy s) /\ _isInitialized (mgr (destroy s)) = false).
  { split; [exact (reach_run ADestroy s R)|].
    destruct (_isInitialized (mgr s)) eqn:E.
    - now apply destroy_initialized.
    - now rewrite destroy_uninitialized. }
  destruct D as [Rd Id]. destruct (U _ Rd Id) as [Ud Fd].
  split; [|split; [now apply U|split; [exact Ud|split; [exact Fd|]]]].
  - intro I. pose proof (reachable_registered s R I) as G.
    unfold registered, registrations in G.
    destruct (ticker (host s)) eqn:T; [|discriminate].
    destruct (dom (host s)) as [d|] eqn:Dm; [|discriminate].
    destruct (onMouseMove d) eqn:L1; [|discriminate].
    destruct (onMouseEnter d) eqn:L2; [|discriminate].
    destruct (onMouseLeave d) eqn:L3; [|discriminate].
    split.
    + intro e. unfold dispatch. rewrite Dm.
      destruct e; cbn [handle]; [now rewrite L1|now rewrite L2|now rewrite L3].
    + unfold frame. now rewrite T.
  - intro l. induction l as [|e l IH]; [reflexivity|].
    cbn [map run_all fold_left run]. rewrite Ud. exact IH.
Qed.

Lemma delivery_needs_init_witness :
  dispatch (MouseMove 99 99) (destroy pointer_at_10_5) = destroy pointer_at_10_5
  /\ position (dispatch (MouseMove 99 99) (destroy pointer_at_10_5))
     = mkPosition 10 5.
Proof.
  assert (R : reachable pointer_at_10_5)
    by apply reach_run, reach_new, pristine_browser.
  pose proof (proj1 (proj2 (proj2 (delivery_needs_init pointer_at_10_5 R)))
                (MouseMove 99 99)) as H.
  split; [exact H|]. rewrite H. reflexivity.
Defined.

(** ** The singleton *)

(** X12: there is one instance.  [getInstance] leaves the instance in
    place, a later call returns it and changes nothing, and it returns the
    instance as the calls made on it in between have left it: the options of
    a later call are ignored, its lerp factor included. *)
Theorem getInstance_singleton (o1 o2 : option CursorManagerOptions)
  (p : Program) :
  instance (snd (getInstance o1 p)) = Some (fst (getInstance o1 p)) /\
  getInstance o2 (snd (getInstance o1 p)) = getInstance o1 p /\
  (forall f,
     let s := f (mkSys (fst (getInstance o1 p)) (phost (snd (getInstance o1 p)))) in
     getInstance o2 (on_instance f (snd (getInstance o1 p)))
     = (mgr s, mkProgram (Some (mgr s)) (host s))) /\
  (forall f2 autoInit initialStyle,
     _lerpFactor
       (fst (getInstance (Some (mkOptions (Some f2) autoInit initialStyle))
               (snd (getInstance o1 p))))
     = _lerpFactor (fst (getInstance o1 p))).
Proof.
  assert (A : instance (snd (getInstance o1 p)) = Some (fst (getInstance o1 p))).
  { unfold getInstance. destruct (instance p) eqn:E; [exact E|reflexivity]. }
  assert (B : forall o, getInstance o (snd (getInstance o1 p)) = getInstance o1 p).
  { intro o. unfold getInstance at 1. rewrite A.
    now destruct (getInstance o1 p). }
  split; [exact A|]. split; [apply B|]. split.
  - intro f. cbv zeta. unfold on_instance. rewrite A. reflexivity.
  - intros f2 autoInit initialStyle. now rewrite B.
Qed.

(** X13: [destroyInstance()] destroys the instance and forgets it; with no
    instance it does nothing, so it is idempotent.  The [getInstance] that
    follows builds a new manager from its own options on the host that
    [destroy()] left: style stack, subscribers and positions of the old
    instance are gone, and on a page the new one is initialized unless
    [autoInit] is false. *)
Theorem destroyInstance_resets (p : Program) :
  instance (destroyInstance p) = None /\
  destroyInstance (destroyInstance p) = destroyInstance p /\
  (instance p = None -> destroyInstance p = p) /\
  (forall m, instance p = Some m ->
     phost (destroyInstance p) = host (destroy (mkSys m (phost p)))) /\
  (forall o,
     let s := new_CursorManager o (phost (destroyInstance p)) in
     getInstance o (destroyInstance p) = (mgr s, mkProgram (Some (mgr s)) (host s))
     /\ _subscribers (mgr s) = []
     /\ position s = mkPosition 0 0 /\ smoothPosition s = mkPosition 0 0
     /\ isVisible s = true
     /\ exists c, stack s = [c]) /\
  (forall d, dom (phost p) = Some d ->
     _isInitialized (fst (getInstance None (destroyInstance p))) = true).
Proof.
  assert (A : instance (destroyInstance p) = None).
  { unfold destroyInstance. now destruct (instance p) eqn:E. }
  split; [exact A|]. split; [|split; [|split; [|split]]].
  - unfold destroyInstance at 1. now rewrite A.
  - intro E. unfold destroyInstance. now rewrite E.
  - intros m E. unfold destroyInstance. now rewrite E.
  - intro o. cbv zeta. split.
    { unfold getInstance. now rewrite A. }
    destruct (new_CursorManager_mgr o (phost (destroyInstance p))) as [E|E];
      cbv zeta in E; unfold position, smoothPosition, isVisible; rewrite E;
      repeat split; eexists; reflexivity.
  - intros d D.
    assert (D' : exists d', dom (phost (destroyInstance p)) = Some d').
    { unfold destroyInstance. destruct (instance p) as [m|]; [|now exists d].
      cbn [phost]. unfold destroy. cbn [mgr host].
      destruct (negb (_isInitialized m)); [now exists d|].
      cbn [on_mgr on_host host set_ticker dom]. unfold set_listeners.
      cbn [host]. rewrite D. eexists; reflexivity. }
    destruct D' as [d' D']. unfold getInstance. rewrite A. cbn [fst].
    unfold new_CursorManager. cbn. unfold init, window_undefined.
    cbn [mgr host _isInitialized orb]. rewrite D'. reflexivity.
Qed.

Lemma destroyInstance_resets_witness :
  _isInitialized
    (fst (getInstance None
            (destroyInstance
               (snd (getInstance None (mkProgram None (browser 800 600)))))))
  = true.
Proof.
  exact (proj2 (proj2 (proj2 (proj2 (proj2
           (destroyInstance_resets
              (snd (getInstance None (mkProgram None (browser 800 600)))))))))
           _ eq_refl).
Defined.

(** ** Subscribers *)

Lemma Set_has_add (cb : CursorSubscriber) (l : list CursorSubscriber) :
  Set_has cb (Set_add cb l) = true.
Proof. apply Set_has_In, Set_add_In. now left. Qed.

Lemma Set_add_twice (cb : CursorSubscriber) (l : list CursorSubscriber) :
  Set_add cb (Set_add cb l) = Set_add cb l.
Proof. unfold Set_add at 1. now rewrite Set_has_add. Qed.

Lemma Set_delete_absent (cb : CursorSubscriber) (l : list CursorSubscriber) :
  ~ In cb l -> Set_delete cb l = l.
Proof.
  induction l as [|c l IH]; intro H; [reflexivity|]. simpl.
  destruct (Nat.eqb_spec cb c) as [->|N].
  - elim H. now left.
  - simpl. f_equal. apply IH. intro K. apply H. now right.
Qed.

Lemma Set_delete_add (cb : CursorSubscriber) (l : list CursorSubscriber) :
  ~ In cb l -> Set_delete cb (Set_add cb l) = l.
Proof.
  intro H. unfold Set_add. destruct (Set_has cb l) eqn:E.
  - apply Set_has_In in E. contradiction.
  - unfold Set_delete. rewrite filter_app. simpl. rewrite Nat.eqb_refl. simpl.
    rewrite app_nil_r. now apply Set_delete_absent.
Qed.

Lemma set_subscribers_id (m : Manager) : set_subscribers (_subscribers m) m = m.
Proof. destruct m; reflexivity. Qed.

(** A snapshot reads the manager and the window, nothing else. *)
Lemma getState_ext (s1 s2 : Sys) :
  mgr s1 = mgr s2 -> dom (host s1) = dom (host s2) -> getState s1 = getState s2.
Proof.
  intros M D. unfold getState, normalizedPosition, style. now rewrite M, D.
Qed.

Lemma _update_calls (s : Sys) :
  calls (host (_update s))
  = calls (host s)
    ++ map (fun cb => (cb, getState (_update s))) (_subscribers (mgr s)).
Proof.
  unfold _update at 1. cbv zeta. rewrite _notifySubscribers_host.
  cbn [calls mgr host set_smoothPosition set_previousPosition set_velocity
       _subscribers].
  f_equal. apply map_ext. intro cb. f_equal. apply getState_ext.
  - unfold _update. now rewrite _notifySubscribers_mgr.
  - unfold _update. now rewrite _notifySubscribers_host.
Qed.

Lemma _update_host_frame (s : Sys) :
  dom (host (_update s)) = dom (host s) /\
  ticker (host (_update s)) = ticker (host s).
Proof. unfold _update. rewrite _notifySubscribers_host. now split. Qed.

(** Who is subscribed changes with [subscribe], [unsubscribe] and
    [destroy] only. *)
Lemma run_subscribers_other (a : Action) (s : Sys) :
  match a with
  | ADestroy | ASubscribe _ | AUnsubscribe _ => True
  | _ => _subscribers (mgr (run a s)) = _subscribers (mgr s)
  end.
Proof.
  destruct a; cbn [run]; try exact I.
  - unfold init. destruct (_ || _); reflexivity.
  - unfold dispatch. destruct (dom (host s)) as [d|]; [|reflexivity].
    destruct e; [destruct (onMouseMove d)|destruct (onMouseEnter d)
                |destruct (onMouseLeave d)]; reflexivity.
  - unfold frame. destruct (ticker (host s)); [|reflexivity].
    now rewrite _update_mgr.
  - reflexivity.
  - reflexivity.
  - unfold show. cbv zeta. cbn [on_host mgr]. now rewrite show_loop_mgr.
  - reflexivity.
  - now rewrite popStyle_mgr.
  - unfold setBaseStyle. cbv zeta.
    match goal with |- context [if ?b then _ else _] => destruct b end;
      reflexivity.
  - reflexivity.
Qed.

Lemma reachable_NoDup (s : Sys) : reachable s -> NoDup (_subscribers (mgr s)).
Proof.
  induction 1 as [options h _|a s _ IH].
  - destruct (new_CursorManager_mgr options h) as [E|E]; cbv zeta in E;
      rewrite E; constructor.
  - pose proof (run_subscribers_other a s) as F.
    destruct a; try (rewrite F; exact IH); cbn [run].
    + unfold destroy. destruct (negb _); [exact IH|constructor].
    + now apply Set_add_NoDup.
    + now apply NoDup_filter.
Qed.

(** X14: a tick calls every subscriber once, in the order of subscription,
    and all of them with one snapshot, taken after the update.  In a
    reachable state no callback is in the set twice, so its number of calls
    in a tick is 1 if it is subscribed and 0 if not; without subscribers a
    tick leaves the host as it is. *)
Theorem tick_notifies_each_once (s : Sys) :
  reachable s ->
  NoDup (_subscribers (mgr s)) /\
  calls (host (_update s))
  = calls (host s)
    ++ map (fun cb => (cb, getState (_update s))) (_subscribers (mgr s)) /\
  (forall cb,
     count_occ Nat.eq_dec
       (map fst (skipn (length (calls (host s))) (calls (host (_update s))))) cb
     = if Set_has cb (_subscribers (mgr s)) then 1%nat else 0%nat) /\
  (_subscribers (mgr s) = [] -> host (_update s) = host s).
Proof.
  intro R. pose proof (reachable_NoDup s R) as N.
  split; [exact N|]. split; [apply _update_calls|]. split.
  - intro cb. rewrite _update_calls, skipn_app, Nat.sub_diag, skipn_all.
    cbn [app skipn]. rewrite map_map. cbn [fst]. rewrite map_id.
    destruct (Set_has cb (_subscribers (mgr s))) eqn:E.
    + apply Set_has_In in E.
      pose proof (proj1 (NoDup_count_occ Nat.eq_dec _) N cb) as U.
      pose proof (proj1 (count_occ_In Nat.eq_dec _ cb) E) as L. lia.
    + apply count_occ_not_In. intro K. apply Set_has_In in K. congruence.
  - intro E. unfold _update. cbv zeta. unfold _notifySubscribers.
    cbn [mgr set_smoothPosition set_previousPosition set_velocity _subscribers].
    now rewrite E.
Qed.

Lemma tick_notifies_each_once_witness :
  count_occ Nat.eq_dec
    (map fst
       (skipn
          (length (calls (host (run (ASubscribe 7%nat)
                                  (run (ASubscribe 7%nat) pointer_at_10_5)))))
          (calls (host (_update (run (ASubscribe 7%nat)
                                   (run (ASubscribe 7%nat) pointer_at_10_5)))))))
    7%nat
  = 1%nat.
Proof.
  refine (eq_trans
            (proj1 (proj2 (proj2 (tick_notifies_each_once
               (run (ASubscribe 7%nat) (run (ASubscribe 7%nat) pointer_at_10_5))
               _))) 7%nat)
            eq_refl).
  apply reach_run, reach_run, reach_run, reach_new, pristine_browser.
Defined.

Lemma ticks_subscribers (n : nat) (s : Sys) :
  _subscribers (mgr (ticks n s)) = _subscribers (mgr s).
Proof.
  revert s. induction n as [|n IH]; intro s; [reflexivity|].
  cbn [ticks]. now rewrite IH, _update_mgr.
Qed.

Lemma ticks_never_call (cb : CursorSubscriber) (n : nat) :
  forall s, ~ In cb (_subscribers (mgr s)) ->
    filter (fun c => Nat.eqb cb (fst c)) (calls (host (ticks n s)))
    = filter (fun c => Nat.eqb cb (fst c)) (calls (host s)).
Proof.
  induction n as [|n IH]; intros s H; [reflexivity|].
  cbn [ticks]. rewrite IH by (now rewrite _update_mgr).
  rewrite _update_calls, filter_app.
  assert (Z : filter (fun c => Nat.eqb cb (fst c))
                (map (fun c => (c, getState (_update s))) (_subscribers (mgr s)))
              = []).
  { induction (_subscribers (mgr s)) as [|c l IHl]; [reflexivity|].
    cbn [map filter fst]. destruct (Nat.eqb_spec cb c) as [->|_].
    - elim H. now left.
    - apply IHl. intro K. apply H. now right. }
  exact (eq_trans (f_equal (app _) Z) (app_nil_r _)).
Qed.

(** X15: the handle that [subscribe] returns ends the calls: after it no
    tick calls the callback again, the other subscribers stay, a second use
    of the handle and the handle of a callback that is not subscribed change
    nothing, and subscribing a new callback and unsubscribing it gives back
    the manager. *)
Theorem unsubscribe_stops_calls (cb : CursorSubscriber) (s : Sys) :
  (forall n,
     filter (fun c => Nat.eqb cb (fst c))
       (calls (host (ticks n (unsubscribe cb s))))
     = filter (fun c => Nat.eqb cb (fst c)) (calls (host s))) /\
  (forall c, In c (_subscribers (mgr (unsubscribe cb s)))
             <-> c <> cb /\ In c (_subscribers (mgr s))) /\
  unsubscribe cb (unsubscribe cb s) = unsubscribe cb s /\
  (~ In cb (_subscribers (mgr s)) ->
   unsubscribe cb s = s /\
   mgr (snd (subscribe cb s) (fst (subscribe cb s))) = mgr s).
Proof.
  assert (A : ~ In cb (_subscribers (mgr (unsubscribe cb s)))).
  { cbn [unsubscribe on_mgr mgr set_subscribers _subscribers].
    rewrite Set_delete_In. intros [K _]. now apply K. }
  assert (B : forall t, ~ In cb (_subscribers (mgr t)) -> unsubscribe cb t = t).
  { intros t H. unfold unsubscribe, on_mgr.
    rewrite (Set_delete_absent cb _ H), set_subscribers_id. now destruct t. }
  split; [|split; [|split; [|split]]].
  - intro n. now rewrite ticks_never_call.
  - intro c. cbn [unsubscribe on_mgr mgr set_subscribers _subscribers].
    apply Set_delete_In.
  - now apply B.
  - now apply B.
  - cbn [subscribe fst snd unsubscribe on_mgr on_host mgr set_subscribers
         _subscribers].
    rewrite (Set_delete_add cb _ H). destruct (mgr s); reflexivity.
Qed.

Lemma unsubscribe_stops_calls_witness :
  unsubscribe 3%nat pointer_at_10_5 = pointer_at_10_5.
Proof.
  refine (proj1 (proj2 (proj2 (proj2
            (unsubscribe_stops_calls 3%nat pointer_at_10_5))) _)).
  simpl. tauto.
Defined.

(** X16: subscribing a callback that is subscribed already calls it once
    more with the current state and leaves the set as it is; one use of
    either handle then removes the callback, and the other handle has
    nothing left to remove. *)
Theorem subscribe_twice (cb : CursorSubscriber) (s : Sys) :
  _subscribers (mgr (fst (subscribe cb (fst (subscribe cb s)))))
  = _subscribers (mgr (fst (subscribe cb s))) /\
  calls (host (fst (subscribe cb (fst (subscribe cb s)))))
  = calls (host s) ++ [(cb, getState s); (cb, getState s)] /\
  ~ In cb (_subscribers
             (mgr (snd (subscribe cb s)
                     (fst (subscribe cb (fst (subscribe cb s))))))) /\
  snd (subscribe cb (fst (subscribe cb s)))
    (snd (subscribe cb s) (fst (subscribe cb (fst (subscribe cb s)))))
  = snd (subscribe cb s) (fst (subscribe cb (fst (subscribe cb s)))).
Proof.
  split; [|split; [|split]].
  - cbn [subscribe fst on_mgr on_host mgr set_subscribers _subscribers].
    apply Set_add_twice.
  - cbn [subscribe fst on_mgr on_host host call calls].
    rewrite <- app_assoc. reflexivity.
  - cbn [subscribe fst snd unsubscribe on_mgr on_host mgr set_subscribers
         _subscribers].
    rewrite Set_delete_In. intros [K _]. now apply K.
  - cbn [subscribe snd].
    set (t := fst (subscribe cb (fst (subscribe cb s)))).
    unfold unsubscribe at 1, on_mgr.
    assert (H : ~ In cb (_subscribers (mgr (unsubscribe cb t)))).
    { cbn [unsubscribe on_mgr mgr set_subscribers _subscribers].
      rewrite Set_delete_In. intros [K _]. now apply K. }
    rewrite (Set_delete_absent cb _ H), set_subscribers_id.
    now destruct (unsubscribe cb t).
Qed.

(** ** Positions *)

Lemma lerp_same (a b t : Q) : a == b -> lerp a b t == b.
Proof. intro H. unfold lerp. rewrite H. ring. Qed.

Lemma ticks_stay (n : nat) :
  forall s,
    x (smoothPosition s) == x (position s) ->
    y (smoothPosition s) == y (position s) ->
    x (smoothPosition (ticks n s)) == x (position s) /\
    y (smoothPosition (ticks n s)) == y (position s).
Proof.
  induction n as [|n IH]; intros s Hx Hy; [now split|].
  cbn [ticks].
  assert (P : position (_update s) = position s)
    by (unfold position; now rewrite _update_mgr).
  rewrite <- P. apply IH; rewrite P; unfold smoothPosition, position in *;
    rewrite _update_mgr; cbn [_smoothPosition x y]; now apply lerp_same.
Qed.

(** X17: [snapToPosition()] makes the smoothed position the raw position,
    exactly and whatever the lerp factor, and touches nothing else; from
    there on ticks keep the smoothed position on the raw one as long as the
    pointer rests. *)
Theorem snapToPosition_is_fixed_point (s : Sys) :
  smoothPosition (snapToPosition s) = position s /\
  mgr (snapToPosition s) = set_smoothPosition (position s) (mgr s) /\
  host (snapToPosition s) = host s /\
  (forall n,
     x (smoothPosition (ticks n (snapToPosition s))) == x (position s) /\
     y (smoothPosition (ticks n (snapToPosition s))) == y (position s)) /\
  velocity (_update (snapToPosition s)) = velocity (_update s).
Proof.
  assert (A : smoothPosition (snapToPosition s) = position s).
  { unfold smoothPosition, position, snapToPosition.
    cbn [on_mgr mgr set_smoothPosition _smoothPosition].
    now destruct (_position (mgr s)). }
  split; [exact A|]. split; [|split; [reflexivity|split]].
  - unfold snapToPosition, position. cbn [on_mgr mgr].
    now destruct (_position (mgr s)).
  - intro n.
    change (position s) with (position (snapToPosition s)).
    apply ticks_stay; rewrite A; reflexivity.
  - unfold velocity. now rewrite !_update_mgr.
Qed.

Lemma lerp_between (a b t : Q) :
  0 <= t <= 1 -> Qmin a b <= lerp a b t <= Qmax a b.
Proof.
  intro H. unfold lerp. destruct (Qlt_le_dec a b) as [L|L].
  - rewrite (Q.min_l a b), (Q.max_r a b) by lra.
    assert (P1 : 0 <= (b - a) * t) by (apply Qmult_le_0_compat; lra).
    assert (P2 : 0 <= (b - a) * (1 - t)) by (apply Qmult_le_0_compat; lra).
    split; lra.
  - rewrite (Q.min_r a b), (Q.max_l a b) by lra.
    assert (P1 : 0 <= (a - b) * t) by (apply Qmult_le_0_compat; lra).
    assert (P2 : 0 <= (a - b) * (1 - t)) by (apply Qmult_le_0_compat; lra).
    split; lra.
Qed.

Lemma lerp_overshoots (a b t : Q) :
  1 < t -> (a < b -> b < lerp a b t) /\ (b < a -> lerp a b t < b).
Proof.
  intro H. unfold lerp. split; intro L.
  - assert (P : 0 < (b - a) * (t - 1)) by (apply Qmult_lt_0_compat; lra). lra.
  - assert (P : 0 < (a - b) * (t - 1)) by (apply Qmult_lt_0_compat; lra). lra.
Qed.

(** X18: the ends of the range of the lerp factor, and beyond, in exact
    arithmetic and in each coordinate.  With the factor 1 a tick puts the
    smoothed position on the raw one; with the factor 0, which only the
    constructor can set, ticks never move it; with a factor of [0, 1] a tick
    leaves it between where it was and the raw position; with a factor above
    1 a tick carries it past the raw position, from either side. *)
Theorem lerp_factor_edges (s : Sys) :
  (lerpFactor s == 1 ->
   x (smoothPosition (_update s)) == x (position s) /\
   y (smoothPosition (_update s)) == y (position s)) /\
  (lerpFactor s == 0 ->
   forall n, x (smoothPosition (ticks n s)) == x (smoothPosition s) /\
             y (smoothPosition (ticks n s)) == y (smoothPosition s)) /\
  (0 <= lerpFactor s <= 1 ->
   Qmin (x (smoothPosition s)) (x (position s))
   <= x (smoothPosition (_update s))
   <= Qmax (x (smoothPosition s)) (x (position s)) /\
   Qmin (y (smoothPosition s)) (y (position s))
   <= y (smoothPosition (_update s))
   <= Qmax (y (smoothPosition s)) (y (position s))) /\
  (1 < lerpFactor s ->
   (x (smoothPosition s) < x (position s) ->
    x (position s) < x (smoothPosition (_update s))) /\
   (x (position s) < x (smoothPosition s) ->
    x (smoothPosition (_update s)) < x (position s)) /\
   (y (smoothPosition s) < y (position s) ->
    y (position s) < y (smoothPosition (_update s))) /\
   (y (position s) < y (smoothPosition s) ->
    y (smoothPosition (_update s)) < y (position s))).
Proof.
  split; [|split; [|split]].
  - intro H. unfold smoothPosition, position, lerpFactor in *.
    rewrite _update_mgr. cbn [_smoothPosition x y]. unfold lerp.
    rewrite H. split; ring.
  - intros H n. revert s H. induction n as [|n IH]; intros s H; [now split|].
    cbn [ticks].
    assert (F : lerpFactor (_update s) == 0)
      by (unfold lerpFactor in *; now rewrite _update_mgr).
    destruct (IH (_update s) F) as [Ix Iy]. rewrite Ix, Iy.
    unfold smoothPosition, lerpFactor in *. rewrite _update_mgr.
    cbn [_smoothPosition x y]. unfold lerp. rewrite H. split; ring.
  - intro H. unfold smoothPosition, position, lerpFactor in *.
    rewrite _update_mgr. cbn [_smoothPosition x y].
    split; now apply lerp_between.
  - intro H. unfold smoothPosition, position, lerpFactor in *.
    rewrite _update_mgr. cbn [_smoothPosition x y].
    destruct (lerp_overshoots (x (_smoothPosition (mgr s))) (x (_position (mgr s)))
                (_lerpFactor (mgr s)) H) as [X1 X2].
    destruct (lerp_overshoots (y (_smoothPosition (mgr s))) (y (_position (mgr s)))
                (_lerpFactor (mgr s)) H) as [Y1 Y2].
    repeat split; assumption.
Qed.

Lemma lerp_factor_edges_witness :
  x (smoothPosition (_update (setLerpFactor 1 pointer_at_10_5))) == 10 /\
  y (position pointer_at_10_5)
  < y (smoothPosition
         (_update (_handleMouseMove 10 5
                     (new_CursorManager (Some (mkOptions (Some 2) None None))
                        headless)))).
Proof.
  split.
  - refine (proj1 (proj1 (lerp_factor_edges (setLerpFactor 1 pointer_at_10_5)) _)).
    reflexivity.
  - refine (proj1 (proj2 (proj2 (proj2 (proj2 (proj2
              (lerp_factor_edges
                 (_handleMouseMove 10 5
                    (new_CursorManager (Some (mkOptions (Some 2) None None))
                       headless))))) _))) _); reflexivity.
Defined.

Lemma frames_velocity_sum (ps : list Position) :
  forall s,
    sum_x (frame_velocities ps s)
    == x (_previousPosition (mgr (frames_with_moves ps s)))
       - x (_previousPosition (mgr s)) /\
    sum_y (frame_velocities ps s)
    == y (_previousPosition (mgr (frames_with_moves ps s)))
       - y (_previousPosition (mgr s)).
Proof.
  induction ps as [|p r IH]; intro s.
  - cbn. split; ring.
  - cbn [frame_velocities frames_with_moves fold_left sum_x sum_y fold_right].
    destruct (IH (_update (_handleMouseMove (x p) (y p) s))) as [Ix Iy].
    fold (sum_x (frame_velocities r (_update (_handleMouseMove (x p) (y p) s)))).
    fold (sum_y (frame_velocities r (_update (_handleMouseMove (x p) (y p) s)))).
    fold (frames_with_moves r (_update (_handleMouseMove (x p) (y p) s))).
    rewrite Ix, Iy. unfold velocity. rewrite !_update_mgr.
    cbn [_velocity _previousPosition _position _handleMouseMove on_mgr mgr
         set_position set_isInViewport x y].
    split; ring.
Qed.

Lemma exact_int_sub (a b : Q) :
  exact_int 4503599627370496 a -> exact_int 4503599627370496 b ->
  exact_int 9007199254740992 (a - b).
Proof.
  intros (za & -> & Ha) (zb & -> & Hb).
  exists (za * 1 + - zb * 1)%Z. split; [reflexivity|lia].
Qed.

Lemma frame_velocities_exact (ps : list Position) :
  forall s,
    exact_position 4503599627370496 (_previousPosition (mgr s)) ->
    Forall (exact_position 4503599627370496) ps ->
    Forall (exact_position 9007199254740992) (frame_velocities ps s).
Proof.
  induction ps as [|p r IH]; intros s Hs Hp; [constructor|].
  inversion Hp as [|p' r' [Px Py] Hr]; subst.
  cbn [frame_velocities]. constructor.
  - unfold velocity. rewrite _update_mgr.
    cbn [_velocity _previousPosition _position _handleMouseMove on_mgr mgr
         set_position set_isInViewport x y].
    destruct Hs as [Sx Sy]. split; now apply exact_int_sub.
  - apply IH; [|exact Hr]. rewrite _update_mgr.
    cbn [_previousPosition _position _handleMouseMove on_mgr mgr
         set_position set_isInViewport x y]. now split.
Qed.

(** X19: velocities add up to the way the pointer went.  Pointer
    coordinates are taken to be integers of magnitude up to 2^52, of which
    doubles compute differences exactly.  Then the velocity of every frame
    is an integer of magnitude up to 2^53; over any series of frames, the
    pointer moving before each of them, the velocities of the frames sum to
    the last position minus the position of the frame before the series;
    and of several moves before one frame only the last one counts. *)
Theorem velocities_telescope (ps : list Position) (s : Sys) :
  exact_position 4503599627370496 (_previousPosition (mgr s)) ->
  Forall (exact_position 4503599627370496) ps ->
  Forall (exact_position 9007199254740992) (frame_velocities ps s) /\
  (sum_x (frame_velocities ps s)
   == x (_previousPosition (mgr (frames_with_moves ps s)))
      - x (_previousPosition (mgr s)) /\
   sum_y (frame_velocities ps s)
   == y (_previousPosition (mgr (frames_with_moves ps s)))
      - y (_previousPosition (mgr s))) /\
  (forall p, _previousPosition (mgr (frames_with_moves (ps ++ [p]) s))
             = mkPosition (x p) (y p) /\
             position (frames_with_moves (ps ++ [p]) s) = mkPosition (x p) (y p)) /\
  (forall x1 y1 x2 y2,
     _update (_handleMouseMove x2 y2 (_handleMouseMove x1 y1 s))
     = _update (_handleMouseMove x2 y2 s)).
Proof.
  intros Hs Hp. split; [now apply frame_velocities_exact|].
  split; [apply frames_velocity_sum|]. split.
  - intro p. unfold frames_with_moves, position. rewrite fold_left_app.
    cbn [fold_left]. rewrite _update_mgr.
    cbn [_previousPosition _position _handleMouseMove on_mgr mgr set_position
         set_isInViewport x y]. now split.
  - reflexivity.
Qed.

Lemma velocities_telescope_witness :
  sum_x (frame_velocities [mkPosition 10 5; mkPosition 7 9]
           (new_CursorManager None headless))
  == 7.
Proof.
  assert (E : forall z, (Z.abs z <= 4503599627370496)%Z ->
                        exact_int 4503599627370496 (inject_Z z)).
  { intros z Hz. exists z. now split. }
  refine (proj1 (proj1 (proj2 (velocities_telescope
            [mkPosition 10 5; mkPosition 7 9]
            (new_CursorManager None headless) _ _)))).
  - split; apply (E 0%Z); simpl; lia.
  - repeat constructor; [apply (E 10%Z)|apply (E 5%Z)|apply (E 7%Z)
                        |apply (E 9%Z)]; simpl; lia.
Defined.

Lemma normalized_coordinate_range (a w : Q) :
  0 < w ->
  (-1 <= a / w * 2 - 1 <= 1 <-> 0 <= a <= w) /\
  (a / w * 2 - 1 < -1 <-> a < 0) /\
  (1 < a / w * 2 - 1 <-> w < a).
Proof.
  intro Hw.
  assert (E : a == a / w * w) by (field; lra).
  set (q := a / w) in *.
  pose proof (Qmult_le_r 0 q w Hw) as A0.
  pose proof (Qmult_le_r q 1 w Hw) as A1.
  pose proof (Qmult_lt_r q 0 w Hw) as B0.
  pose proof (Qmult_lt_r 1 q w Hw) as B1.
  split; [|split].
  - split; intros [L U].
    + split.
      * rewrite E. assert (K : 0 * w <= q * w) by (apply A0; lra). lra.
      * rewrite E. assert (K : q * w <= 1 * w) by (apply A1; lra). lra.
    + rewrite E in L, U.
      assert (K0 : 0 <= q) by (apply A0; lra).
      assert (K1 : q <= 1) by (apply A1; lra).
      split; lra.
  - split; intro L.
    + rewrite E. assert (K : q * w < 0 * w) by (apply B0; lra). lra.
    + rewrite E in L. assert (K : q < 0) by (apply B0; lra). lra.
  - split; intro L.
    + rewrite E. assert (K : 1 * w < q * w) by (apply B1; lra). lra.
    + rewrite E in L. assert (K : 1 < q) by (apply B1; lra). lra.
Qed.

(** X20: in exact arithmetic the normalized position is not clamped.  In
    a viewport of positive width and height both coordinates are finite; a
    coordinate lies in [-1, 1] exactly when the pointer lies within the
    viewport in that direction, below -1 exactly when the raw coordinate is
    negative and above 1 exactly when it exceeds the size. *)
Theorem normalized_in_range (s : Sys) (d : Dom) :
  dom (host s) = Some d ->
  0 < innerWidth d -> 0 < innerHeight d ->
  exists nx ny : Q,
    normalizedPosition s = Normalized.mk (Finite nx) (Finite ny) /\
    ((-1 <= nx <= 1 <-> 0 <= x (position s) <= innerWidth d) /\
     (nx < -1 <-> x (position s) < 0) /\
     (1 < nx <-> innerWidth d < x (position s))) /\
    ((-1 <= ny <= 1 <-> 0 <= y (position s) <= innerHeight d) /\
     (ny < -1 <-> y (position s) < 0) /\
     (1 < ny <-> innerHeight d < y (position s))).
Proof.
  intros D W H. unfold normalizedPosition, position. rewrite D.
  rewrite !normalized_coordinate by lra.
  eexists. eexists. split; [reflexivity|].
  split; now apply normalized_coordinate_range.
Qed.

Lemma normalized_in_range_witness :
  exists nx ny : Q,
    normalizedPosition pointer_at_10_5 = Normalized.mk (Finite nx) (Finite ny) /\
    -1 <= nx <= 1 /\ -1 <= ny <= 1.
Proof.
  destruct (normalized_in_range pointer_at_10_5 _ eq_refl eq_refl eq_refl)
    as (nx & ny & E & (Rx & _) & (Ry & _)).
  exists nx, ny. split; [exact E|]. split.
  - apply Rx. split; discriminate.
  - apply Ry. split; discriminate.
Defined.

(** * The hooks and the follower dot *)

(** X21: the server snapshot of [useCursor] is the state of a new manager
    on a host without a window, whatever its lerp factor and [autoInit].
    On a page the first snapshot of a new manager differs from it: the raw
    position (0,0) is normalized to -1 in a coordinate whose viewport size
    is not 0 and to NaN in one whose size is 0, never to 0. *)
Theorem server_snapshot_is_headless_state :
  (forall f autoInit h, dom h = None ->
     getState (new_CursorManager (Some (mkOptions f autoInit None)) h)
     = getServerSnapshot) /\
  (forall h, dom h = None ->
     getState (new_CursorManager None h) = getServerSnapshot) /\
  (forall options w h,
     getState (new_CursorManager options (browser w h)) <> getServerSnapshot /\
     (~ w == 0 ->
      js_is (Normalized.x (Snapshot.normalizedPosition
               (getState (new_CursorManager options (browser w h))))) (-1)) /\
     (w == 0 ->
      Normalized.x (Snapshot.normalizedPosition
        (getState (new_CursorManager options (browser w h)))) = NaN) /\
     (~ h == 0 ->
      js_is (Normalized.y (Snapshot.normalizedPosition
               (getState (new_CursorManager options (browser w h))))) (-1)) /\
     (h == 0 ->
      Normalized.y (Snapshot.normalizedPosition
        (getState (new_CursorManager options (browser w h)))) = NaN)).
Proof.
  assert (G : forall options h, dom h = None ->
                opt_initialStyle
                  (match options with Some o => o | None => no_options end) = None ->
                getState (new_CursorManager options h) = getServerSnapshot).
  { intros options h D S.
    assert (Dn : dom (host (new_CursorManager options h)) = None).
    { unfold new_CursorManager. cbv zeta.
      destruct (match opt_autoInit _ with Some b => b | None => true end);
        [|exact D].
      unfold init, window_undefined. cbn [mgr host]. rewrite D.
      now rewrite orb_true_r. }
    unfold getState, normalizedPosition, style. rewrite Dn.
    destruct (new_CursorManager_mgr options h) as [E|E]; cbv zeta in E;
      rewrite E, S; reflexivity. }
  split; [|split].
  - intros f autoInit h D. now apply G.
  - intros h D. now apply G.
  - intros options w h.
    assert (P : _position (mgr (new_CursorManager options (browser w h)))
                = mkPosition 0 0).
    { destruct (new_CursorManager_mgr options (browser w h)) as [E|E];
        cbv zeta in E; rewrite E; reflexivity. }
    assert (D : exists d, dom (host (new_CursorManager options (browser w h)))
                          = Some d /\ innerWidth d = w /\ innerHeight d = h).
    { unfold new_CursorManager. cbv zeta.
      destruct (match opt_autoInit _ with Some b => b | None => true end);
        [|eexists; repeat split].
      unfold init. destruct (_ || _); eexists; repeat split. }
    destruct D as (d & D & Dw & Dh).
    assert (N : Snapshot.normalizedPosition
                  (getState (new_CursorManager options (browser w h)))
                = Normalized.mk (js_sub (js_mul (js_div 0 w) 2) 1)
                                (js_sub (js_mul (js_div 0 h) 2) 1)).
    { unfold getState. cbn [Snapshot.normalizedPosition].
      unfold normalizedPosition. now rewrite D, P, Dw, Dh. }
    assert (X1 : ~ w == 0 -> js_is (js_sub (js_mul (js_div 0 w) 2) 1) (-1)).
    { intro W. rewrite normalized_coordinate by exact W. cbn [js_is].
      field. exact W. }
    assert (X0 : w == 0 -> js_sub (js_mul (js_div 0 w) 2) 1 = NaN).
    { intro W. now rewrite js_div_zero. }
    assert (Y1 : ~ h == 0 -> js_is (js_sub (js_mul (js_div 0 h) 2) 1) (-1)).
    { intro H. rewrite normalized_coordinate by exact H. cbn [js_is].
      field. exact H. }
    assert (Y0 : h == 0 -> js_sub (js_mul (js_div 0 h) 2) 1 = NaN).
    { intro H. now rewrite js_div_zero. }
    rewrite N. cbn [Normalized.x Normalized.y].
    split; [|now repeat split].
    intro K. apply (f_equal Snapshot.normalizedPosition) in K.
    rewrite N in K. cbn [getServerSnapshot Snapshot.normalizedPosition] in K.
    apply (f_equal Normalized.x) in K. cbn [Normalized.x] in K.
    destruct (Qeq_dec w 0) as [W|W].
    + rewrite (X0 W) in K. discriminate.
    + pose proof (X1 W) as J. rewrite K in J. cbn [js_is] in J.
      revert J. discriminate.
Qed.

Lemma server_snapshot_is_headless_state_witness :
  getState (new_CursorManager None headless) = getServerSnapshot /\
  js_is (Normalized.x (Snapshot.normalizedPosition
           (getState (new_CursorManager None (browser 800 600))))) (-1) /\
  Normalized.x (Snapshot.normalizedPosition (getState zero_size_page)) = NaN.
Proof.
  split; [|split].
  - exact (proj1 (proj2 server_snapshot_is_headless_state) headless eq_refl).
  - refine (proj1 (proj2 (proj2 (proj2 server_snapshot_is_headless_state)
                            None 800 600)) _).
    discriminate.
  - refine (proj1 (proj2 (proj2 (proj2 (proj2 server_snapshot_is_headless_state)
                            None 0 0))) _).
    reflexivity.
Defined.

(** X22: [useCursorVisibility(shouldShow)] makes the cursor visible or
    hidden as asked, and its cleanup leaves the cursor visible and the style
    stack as it was before the effect (its top not being "none", or the base
    style being alone), also when the effect ran again with the other value
    in between. *)
Theorem useCursorVisibility_restores (shouldShow : bool) (s : Sys) :
  stack s <> [] ->
  style s <> s_none \/ length (stack s) = 1%nat ->
  isVisible (useCursorVisibility_effect shouldShow s) = shouldShow /\
  stack (useCursorVisibility_effect shouldShow s)
  = (if shouldShow then stack s else stack s ++ [s_none]) /\
  isVisible (useCursorVisibility_cleanup (useCursorVisibility_effect shouldShow s))
  = true /\
  stack (useCursorVisibility_cleanup (useCursorVisibility_effect shouldShow s))
  = stack s /\
  stack (useCursorVisibility_cleanup
           (useCursorVisibility_effect (negb shouldShow)
              (useCursorVisibility_cleanup
                 (useCursorVisibility_effect shouldShow s))))
  = stack s.
Proof.
  intros N T.
  assert (S0 : forall t, stack t = stack s -> stack (show t) = stack s).
  { intros t E. apply (show_stack_strip t (stack s) 0); [|exact N|exact T].
    rewrite E. cbn [repeat]. now rewrite app_nil_r. }
  assert (S1 : forall t, stack t = stack s -> stack (show (hide t)) = stack s).
  { intros t E. apply (show_stack_strip _ (stack s) 1); [|exact N|exact T].
    now rewrite hide_stack, E. }
  unfold useCursorVisibility_cleanup, useCursorVisibility_effect.
  destruct shouldShow; cbn [negb].
  - split; [apply show_spec|]. split; [now apply S0|].
    split; [apply show_spec|]. split; [apply S0; now apply S0|].
    apply S1. apply S0. now apply S0.
  - split; [reflexivity|]. split; [apply hide_stack|].
    split; [apply show_spec|]. split; [now apply S1|].
    apply S0. apply S0. now apply S1.
Qed.

Lemma useCursorVisibility_restores_witness :
  stack (useCursorVisibility_cleanup
           (useCursorVisibility_effect false
              (run (APushStyle s_pointer) (new_CursorManager None headless))))
  = [s_default; s_pointer].
Proof.
  refine (proj1 (proj2 (proj2 (proj2
            (useCursorVisibility_restores false
               (run (APushStyle s_pointer) (new_CursorManager None headless))
               _ _))))).
  - discriminate.
  - left. discriminate.
Defined.

(** ** The follower dot *)

Lemma FollowCursor_tick_el (target : Position) (v : FollowCursor) :
  fc_el (FollowCursor_tick target v) = fc_el v.
Proof. unfold FollowCursor_tick. now destruct (fc_el v) eqn:E. Qed.

Lemma FollowCursor_ticks_distance (target : Position) (n : nat) :
  forall v, fc_el v = true ->
    Qabs (x (fc_pos (FollowCursor_ticks n target v)) - x target)
    == (1 - EASE) ^ Z.of_nat n * Qabs (x (fc_pos v) - x target) /\
    Qabs (y (fc_pos (FollowCursor_ticks n target v)) - y target)
    == (1 - EASE) ^ Z.of_nat n * Qabs (y (fc_pos v) - y target).
Proof.
  induction n as [|n IH]; intros v E.
  - change ((1 - EASE) ^ Z.of_nat 0) with 1. cbn [FollowCursor_ticks].
    split; ring.
  - cbn [FollowCursor_ticks].
    destruct (IH (FollowCursor_tick target v)) as [Ix Iy];
      [now rewrite FollowCursor_tick_el|].
    rewrite Ix, Iy, Qpower_S. unfold FollowCursor_tick. rewrite E.
    cbn [fc_pos x y].
    rewrite !lerp_distance by discriminate. split; ring.
Qed.

(** X23: the follower dot, in exact arithmetic.  Without its element a
    frame changes nothing.  With it, a frame moves the position of the dot
    by 0.12 of the way to the pointer and writes the translation
    [position - 5]; towards a pointer at rest the distance is [0.88^n] times
    the initial one after [n] frames, and it drops below every positive
    bound. *)
Theorem FollowCursor_converges (target : Position) (v : FollowCursor) :
  (fc_el v = false -> forall n, FollowCursor_ticks n target v = v) /\
  (fc_el v = true ->
   (exists t, fc_transform (FollowCursor_tick target v) = Some t /\
              x t == x (fc_pos (FollowCursor_tick target v)) - 5 /\
              y t == y (fc_pos (FollowCursor_tick target v)) - 5) /\
   (forall n,
      Qabs (x (fc_pos (FollowCursor_ticks n target v)) - x target)
      == (1 - EASE) ^ Z.of_nat n * Qabs (x (fc_pos v) - x target) /\
      Qabs (y (fc_pos (FollowCursor_ticks n target v)) - y target)
      == (1 - EASE) ^ Z.of_nat n * Qabs (y (fc_pos v) - y target)) /\
   (forall eps, 0 < eps ->
      exists N, forall n, (N <= n)%nat ->
        Qabs (x (fc_pos (FollowCursor_ticks n target v)) - x target) < eps /\
        Qabs (y (fc_pos (FollowCursor_ticks n target v)) - y target) < eps)).
Proof.
  split.
  - intros E n. induction n as [|n IH]; [reflexivity|].
    cbn [FollowCursor_ticks]. unfold FollowCursor_tick at 1. now rewrite E.
  - intro E. split; [|split].
    + unfold FollowCursor_tick. rewrite E. cbn [fc_transform fc_pos x y].
      eexists. split; [reflexivity|]. cbn [x y]. split; reflexivity.
    + intro n. now apply FollowCursor_ticks_distance.
    + intros eps He.
      assert (Ht : 0 < EASE <= 1) by (split; [reflexivity|discriminate]).
      destruct (shrinks_below EASE Ht (Qabs (x (fc_pos v) - x target)) eps
                  (Qabs_nonneg _) He) as [Nx HNx].
      destruct (shrinks_below EASE Ht (Qabs (y (fc_pos v) - y target)) eps
                  (Qabs_nonneg _) He) as [Ny HNy].
      exists (Nat.max Nx Ny). intros n Hn.
      destruct (FollowCursor_ticks_distance target n v E) as [Ex Ey].
      rewrite Ex, Ey. split; [apply HNx|apply HNy]; lia.
Qed.

Lemma FollowCursor_converges_witness :
  exists N, forall n, (N <= n)%nat ->
    Qabs (x (fc_pos (FollowCursor_ticks n (mkPosition 10 5)
                       (mkFollowCursor (mkPosition 0 0) true None))) - 10)
    < 1 # 100 /\
    Qabs (y (fc_pos (FollowCursor_ticks n (mkPosition 10 5)
                       (mkFollowCursor (mkPosition 0 0) true None))) - 5)
    < 1 # 100.
Proof.
  exact (proj2 (proj2 (proj2 (FollowCursor_converges (mkPosition 10 5)
           (mkFollowCursor (mkPosition 0 0) true None)) eq_refl))
           (1 # 100) eq_refl).
Defined.

(** ** useCursorSnapshot *)

Lemma hook_step_ok (e : HookEvent) (h : SnapshotHook) :
  hook_ok h -> hook_ok (hook_step e h).
Proof.
  unfold hook_ok. intro K. destruct h as [pr sn tm ml pd nx ct].
  cbn [moveListener pendingTimeouts timer] in K.
  destruct e as [cx cy|id|]; cbn [hook_step moveListener pendingTimeouts].
  - destruct ml; [|exact K]. unfold onMove, schedule.
    cbn [timer moveListener pendingTimeouts nextTimeout posRef snapshot
         setSnapshotCalls].
    destruct tm as [i|]; cbn [moveListener pendingTimeouts timer];
      [exact K|]. now rewrite K.
  - destruct (existsb (Nat.eqb id) pd) eqn:E; [|exact K].
    unfold onTimeout, clearTimeout.
    cbn [moveListener pendingTimeouts timer]. destruct ml.
    + destruct tm as [i|]; subst pd; [|discriminate].
      cbn [existsb] in E. rewrite orb_false_r in E. cbn [filter].
      now rewrite E.
    + subst pd. discriminate.
  - unfold useCursorSnapshot_cleanup. cbn [timer].
    destruct tm as [i|]; unfold clearTimeout;
      cbn [moveListener pendingTimeouts].
    + destruct ml; subst pd; [|reflexivity].
      cbn [filter]. now rewrite Nat.eqb_refl.
    + destruct ml; exact K.
Qed.

Lemma hook_run_ok (l : list HookEvent) :
  forall h, hook_ok h -> hook_ok (hook_run l h).
Proof.
  induction l as [|e l IH]; intros h K; [exact K|].
  cbn [hook_run fold_left]. apply IH. now apply hook_step_ok.
Qed.

(** Once the cleanup has run, no event changes the hook. *)
Lemma hook_step_unmounted (e : HookEvent) (h : SnapshotHook) :
  moveListener h = false -> pendingTimeouts h = [] -> hook_step e h = h.
Proof.
  destruct h as [pr sn tm ml pd nx ct]. cbn [moveListener pendingTimeouts].
  intros -> ->. destruct e as [cx cy|id|]; cbn; [reflexivity|reflexivity|].
  now destruct tm.
Qed.

Lemma hook_run_unmounted (l : list HookEvent) (h : SnapshotHook) :
  moveListener h = false -> pendingTimeouts h = [] -> hook_run l h = h.
Proof.
  intros M P. induction l as [|e l IH]; [reflexivity|].
  cbn [hook_run fold_left]. rewrite hook_step_unmounted by assumption.
  exact IH.
Qed.

(** X24: [useCursorSnapshot] never has two timeouts running.  Whatever
    pointer moves, timeouts and unmount arrive, at most one timeout is
    pending, the one the effect remembers; the cleanup clears it, and after
    the cleanup no event changes the hook: [setSnapshot] is not called on an
    unmounted component. *)
Theorem throttle_single_timeout (firstId : nat) (l : list HookEvent) :
  hook_ok (hook_run l (useCursorSnapshot_mount firstId)) /\
  (length (pendingTimeouts (hook_run l (useCursorSnapshot_mount firstId))) <= 1)%nat /\
  (forall id,
     In id (pendingTimeouts (hook_run l (useCursorSnapshot_mount firstId))) ->
     timer (hook_run l (useCursorSnapshot_mount firstId)) = Some id) /\
  pendingTimeouts
    (hook_step Unmount (hook_run l (useCursorSnapshot_mount firstId))) = [] /\
  (forall l',
     hook_run l' (hook_step Unmount (hook_run l (useCursorSnapshot_mount firstId)))
     = hook_step Unmount (hook_run l (useCursorSnapshot_mount firstId))).
Proof.
  assert (K : hook_ok (hook_run l (useCursorSnapshot_mount firstId)))
    by (apply hook_run_ok; reflexivity).
  set (h := hook_run l (useCursorSnapshot_mount firstId)) in *.
  assert (U : moveListener (hook_step Unmount h) = false /\
              pendingTimeouts (hook_step Unmount h) = []).
  { pose proof (hook_step_ok Unmount h K) as KU.
    assert (M : moveListener (hook_step Unmount h) = false).
    { cbn [hook_step]. unfold useCursorSnapshot_cleanup. cbn [timer].
      now destruct (timer h). }
    unfold hook_ok in KU. rewrite M in KU. now split. }
  split; [exact K|]. unfold hook_ok in K.
  split; [|split; [|split; [apply U|]]].
  - destruct (moveListener h); rewrite K; [destruct (timer h)|]; simpl; lia.
  - intros id I. destruct (moveListener h); rewrite K in I;
      [|contradiction].
    destruct (timer h) as [i|]; [|contradiction].
    destruct I as [->|[]]. reflexivity.
  - intro l'. apply hook_run_unmounted; apply U.
Qed.

Lemma hook_run_cons (e : HookEvent) (l : list HookEvent) (h : SnapshotHook) :
  hook_run (e :: l) h = hook_run l (hook_step e h).
Proof. reflexivity. Qed.

Lemma last_cons (rest : list Position) :
  forall q p, last (q :: rest) p = last rest q.
Proof.
  induction rest as [|a r IH]; intros q p; [reflexivity|].
  change (last (q :: a :: r) p) with (last (a :: r) p).
  now rewrite (IH a p), (IH a q).
Qed.

Lemma onMove_armed (cx cy : Q) (h : SnapshotHook) (id : nat) :
  timer h = Some id ->
  onMove cx cy h
  = mkSnapshotHook (mkPosition cx cy) (snapshot h) (timer h) (moveListener h)
      (pendingTimeouts h) (nextTimeout h) (setSnapshotCalls h).
Proof. intro T. unfold onMove, schedule. cbn [timer]. now rewrite T. Qed.

(** While the timeout runs, a move only records the position. *)
Lemma burst_while_armed (rest : list Position) :
  forall (h : SnapshotHook) (p : Position) (id : nat),
    moveListener h = true -> timer h = Some id ->
    posRef h = mkPosition (x p) (y p) ->
    hook_run (map (fun q => PointerMove (x q) (y q)) rest) h
    = mkSnapshotHook (mkPosition (x (last rest p)) (y (last rest p)))
        (snapshot h) (timer h) (moveListener h) (pendingTimeouts h)
        (nextTimeout h) (setSnapshotCalls h).
Proof.
  induction rest as [|q rest IH]; intros h p id M T P.
  - cbn [map hook_run fold_left last]. rewrite <- P. now destruct h.
  - cbn [map]. rewrite hook_run_cons. cbn [hook_step]. rewrite M.
    rewrite (onMove_armed _ _ h id T).
    rewrite (IH _ q id); [|exact M|exact T|reflexivity].
    cbn [snapshot timer moveListener pendingTimeouts nextTimeout
         setSnapshotCalls].
    now rewrite last_cons, M.
Qed.

(** X25: the throttle samples the last position of a burst.  From a
    mounted hook with no timeout running, the first move of a burst sets the
    one timeout and the moves after it set none; while it runs the snapshot
    stays as it was; when it fires, [setSnapshot] is called once, with the
    position of the last move, and the hook is ready for the next burst. *)
Theorem throttle_burst (h : SnapshotHook) (p0 : Position)
  (rest : list Position) :
  hook_ok h -> moveListener h = true -> timer h = None ->
  hook_run (map (fun q => PointerMove (x q) (y q)) (p0 :: rest)) h
  = mkSnapshotHook (mkPosition (x (last rest p0)) (y (last rest p0)))
      (snapshot h) (Some (nextTimeout h)) true [nextTimeout h]
      (S (nextTimeout h)) (setSnapshotCalls h) /\
  hook_step (TimeoutFires (nextTimeout h))
    (hook_run (map (fun q => PointerMove (x q) (y q)) (p0 :: rest)) h)
  = mkSnapshotHook (mkPosition (x (last rest p0)) (y (last rest p0)))
      (mkPosition (x (last rest p0)) (y (last rest p0)))
      None true [] (S (nextTimeout h)) (S (setSnapshotCalls h)).
Proof.
  intros K M T.
  assert (P : pendingTimeouts h = []).
  { unfold hook_ok in K. now rewrite M, T in K. }
  assert (A : hook_run (map (fun q => PointerMove (x q) (y q)) (p0 :: rest)) h
              = mkSnapshotHook (mkPosition (x (last rest p0)) (y (last rest p0)))
                  (snapshot h) (Some (nextTimeout h)) true [nextTimeout h]
                  (S (nextTimeout h)) (setSnapshotCalls h)).
  { cbn [map]. rewrite hook_run_cons. cbn [hook_step]. rewrite M.
    assert (E : onMove (x p0) (y p0) h
                = mkSnapshotHook (mkPosition (x p0) (y p0)) (snapshot h)
                    (Some (nextTimeout h)) true [nextTimeout h]
                    (S (nextTimeout h)) (setSnapshotCalls h)).
    { unfold onMove, schedule. cbn [timer]. rewrite T.
      cbn [posRef snapshot moveListener pendingTimeouts nextTimeout
           setSnapshotCalls]. now rewrite M, P. }
    rewrite E.
    now rewrite (burst_while_armed rest _ p0 (nextTimeout h)). }
  split; [exact A|]. rewrite A. cbn [hook_step pendingTimeouts existsb].
  rewrite Nat.eqb_refl. cbn [orb]. unfold onTimeout, clearTimeout.
  cbn [posRef snapshot timer moveListener pendingTimeouts nextTimeout
       setSnapshotCalls filter x y]. now rewrite Nat.eqb_refl.
Qed.

Lemma throttle_burst_witness :
  snapshot
    (hook_step (TimeoutFires 1%nat)
       (hook_run [PointerMove 1 1; PointerMove 2 2; PointerMove 3 4]
          (useCursorSnapshot_mount 1)))
  = mkPosition 3 4.
Proof.
  refine (eq_trans
            (f_equal snapshot
               (proj2 (throttle_burst (useCursorSnapshot_mount 1)
                         (mkPosition 1 1) [mkPosition 2 2; mkPosition 3 4]
                         eq_refl eq_refl eq_refl)))
            eq_refl).
Defined.
